(** * The OpenAI-compatible completion route of Perplexica

    A shallow embedding of [src/routes/openai-completion.ts]: the zod
    request schema, the [throwError] helper, the provider selection and the
    bridge that turns the events of the web-search agent into
    [chat.completion.chunk] server-sent events.

    Conventions.
    - A JavaScript object is the list of its own enumerable properties in
      [Object.keys] order; a property read is the first match.
    - [undefined] is the [None] of an [option]; [null] has a constructor of
      its own wherever the source distinguishes the two.
    - The handler mutates [res], the closure variable [started] and the
      logger; these live in one record, [world], threaded through a monad
      in which a [throw] keeps the writes made so far.
    - [uuid.v4()], [Date.now()], the provider catalogs, the agent and
      [JSON.parse] are inputs. *)

From Stdlib Require Import String Ascii List ZArith Bool Lia.
From Stdlib Require QArith_base.
Import ListNotations.
Local Open Scope string_scope.
Local Open Scope list_scope.
Local Open Scope Z_scope.

Set Implicit Arguments.
Set Warnings "-register-all".

(** ** JavaScript values *)

Module Js.

(** The values [JSON.parse] and the body parser produce. Numbers are
    carried as they are: the route type-checks them and never computes
    with them. *)
Inductive json : Type :=
| JNull
| JBool (b : bool)
| JNum (n : Z)
| JStr (s : string)
| JArr (items : list json)
| JObj (props : list (string * json)).

Definition obj (V : Type) := list (string * V).

(** [o[k]] for a string key. *)
Fixpoint get {V : Type} (k : string) (o : obj V) : option V :=
  match o with
  | [] => None
  | (k', v) :: rest => if String.eqb k k' then Some v else get k rest
  end.

(** [Object.keys(o)[0]]. *)
Definition first_key {V : Type} (o : obj V) : option string :=
  match o with
  | [] => None
  | (k, _) :: _ => Some k
  end.

(** [o[k]] where [k] may be [undefined]: the key is converted to the
    string ["undefined"]. *)
Definition at_key {V : Type} (o : obj V) (k : option string) : option V :=
  get (match k with Some s => s | None => "undefined" end) o.

(** [o[k] = v]: an existing property keeps its place, a new one is added
    last. *)
Fixpoint set {V : Type} (k : string) (v : V) (o : obj V) : obj V :=
  match o with
  | [] => [(k, v)]
  | (k', v') :: rest =>
      if String.eqb k k' then (k, v) :: rest else (k', v') :: set k v rest
  end.

(** [v.name] on a parsed JSON value that is not [null]: only objects
    have own properties named by the route. *)
Definition prop (name : string) (v : json) : option json :=
  match v with
  | JObj o => get name o
  | _ => None
  end.

(** What the route can see thrown. *)
Inductive exn : Type :=
| SyntaxError                (* JSON.parse on a malformed text *)
| TypeError                  (* property read on null, Object.keys(undefined) *)
| ERR_HTTP_HEADERS_SENT.     (* setHeader after the head was flushed *)

Definition LF : string := String (ascii_of_nat 10) EmptyString.

End Js.

Import Js.

(** ** The zod combinators used by [requestParamsSchema]

    A schema reads a possibly absent input and either yields the parsed
    value or reports an issue ([None]). *)

Module Zod.

Definition schema (A : Type) := option json -> option A.

Inductive nullable (A : Type) : Type :=
| null
| notnull (a : A).
Arguments null {A}.

Inductive optional (A : Type) : Type :=
| undefined
| defined (a : A).
Arguments undefined {A}.

Definition string_ : schema string :=
  fun v => match v with Some (JStr s) => Some s | _ => None end.

Definition boolean : schema bool :=
  fun v => match v with Some (JBool b) => Some b | _ => None end.

Definition number : schema Z :=
  fun v => match v with Some (JNum n) => Some n | _ => None end.

(** [z.enum([...])]: the input must be one of the listed strings. *)
Definition enum {A : Type} (values : list (string * A)) : schema A :=
  fun v => match v with Some (JStr s) => get s values | _ => None end.

Definition nullable_ {A : Type} (s : schema A) : schema (nullable A) :=
  fun v =>
    match v with
    | Some JNull => Some null
    | _ => option_map (@notnull A) (s v)
    end.

Definition optional_ {A : Type} (s : schema A) : schema (optional A) :=
  fun v =>
    match v with
    | None => Some undefined
    | _ => option_map (@defined A) (s v)
    end.

Definition default {A : Type} (s : schema A) (d : A) : schema A :=
  fun v => match v with None => Some d | _ => s v end.

Fixpoint all {A : Type} (s : schema A) (items : list json) : option (list A) :=
  match items with
  | [] => Some []
  | x :: rest =>
      match s (Some x), all s rest with
      | Some a, Some l => Some (a :: l)
      | _, _ => None
      end
  end.

Definition array {A : Type} (s : schema A) : schema (list A) :=
  fun v => match v with Some (JArr items) => all s items | _ => None end.

Definition nonempty {A : Type} (s : schema (list A)) : schema (list A) :=
  fun v => match s v with Some [] => None | r => r end.

Definition union {A B : Type} (s : schema A) (t : schema B) : schema (A + B) :=
  fun v =>
    match s v with
    | Some a => Some (inl a)
    | None => option_map (@inr A B) (t v)
    end.

End Zod.

Import Zod.

(** ** The request schema *)

Inductive Role : Type := user | assistant | system.

Inductive ModelName : Type := perplexica.

Record Message : Type := { role : Role; content : string }.

Record Params : Type := {
  messages : list Message;
  model : nullable ModelName;
  stream : nullable bool;
  temperature : nullable (optional Z);
  frequency_penalty : nullable (optional Z);
  max_tokens : nullable (optional Z);
  presence_penalty : nullable (optional Z);
  top_p : nullable (optional Z);
  stop : nullable (optional (list string + string));
  response_raw : nullable (optional bool)
}.

Definition role_schema : schema Role :=
  enum [("user", user); ("assistant", assistant); ("system", system)].

(** [z.object({role, content}).required()]: both keys are read from the
    input object, other keys are stripped. *)
Definition message_schema : schema Message :=
  fun v =>
    match v with
    | Some (JObj o) =>
        match role_schema (get "role" o), string_ (get "content" o) with
        | Some r, Some c => Some {| role := r; content := c |}
        | _, _ => None
        end
    | _ => None
    end.

Definition messages_schema : schema (list Message) :=
  nonempty (array message_schema).

Definition model_schema : schema (nullable ModelName) :=
  default (nullable_ (enum [("perplexica", perplexica)])) (notnull perplexica).

Definition stream_schema : schema (nullable bool) :=
  default (nullable_ boolean) (notnull false).

Definition temperature_schema : schema (nullable (optional Z)) :=
  default (nullable_ (optional_ number)) (notnull (defined 1)).

Definition number_field : schema (nullable (optional Z)) :=
  nullable_ (optional_ number).

Definition stop_schema : schema (nullable (optional (list string + string))) :=
  nullable_ (optional_ (union (array string_) string_)).

Definition response_raw_schema : schema (nullable (optional bool)) :=
  default (nullable_ (optional_ boolean)) (notnull (defined false)).

(** A [ZodError]: the paths of the fields that raised an issue, in schema
    order; [[]] for an input that is not an object. *)
Definition ZodError := list string.

Definition issue {A : Type} (key : string) (r : option A) : list string :=
  match r with Some _ => [] | None => [key] end.

Definition requestParamsSchema (body : json) : ZodError + Params :=
  match body with
  | JObj o =>
      let r_messages := messages_schema (get "messages" o) in
      let r_model := model_schema (get "model" o) in
      let r_stream := stream_schema (get "stream" o) in
      let r_temperature := temperature_schema (get "temperature" o) in
      let r_frequency := number_field (get "frequency_penalty" o) in
      let r_max := number_field (get "max_tokens" o) in
      let r_presence := number_field (get "presence_penalty" o) in
      let r_top := number_field (get "top_p" o) in
      let r_stop := stop_schema (get "stop" o) in
      let r_raw := response_raw_schema (get "response_raw" o) in
      match r_messages, r_model, r_stream, r_temperature, r_frequency,
            r_max, r_presence, r_top, r_stop, r_raw with
      | Some ms, Some md, Some st, Some te, Some fr,
        Some mx, Some pr, Some tp, Some sp, Some rw =>
          inr {| messages := ms; model := md; stream := st;
                 temperature := te; frequency_penalty := fr;
                 max_tokens := mx; presence_penalty := pr; top_p := tp;
                 stop := sp; response_raw := rw |}
      | _, _, _, _, _, _, _, _, _, _ =>
          inl (issue "messages" r_messages ++ issue "model" r_model
               ++ issue "stream" r_stream ++ issue "temperature" r_temperature
               ++ issue "frequency_penalty" r_frequency
               ++ issue "max_tokens" r_max
               ++ issue "presence_penalty" r_presence
               ++ issue "top_p" r_top ++ issue "stop" r_stop
               ++ issue "response_raw" r_raw)
      end
  | _ => inl []
  end.

(** The text of a thrown error's [message]. *)
Inductive ErrorMessage : Type :=
| Text (s : string)
| ZodIssues (e : ZodError).

Definition role_eqb (a b : Role) : bool :=
  match a, b with
  | user, user | assistant, assistant | system, system => true
  | _, _ => false
  end.

(** [messages[messages.length - 1]]. *)
Definition last_message (ms : list Message) : option Message :=
  nth_error ms (length ms - 1).

(** The condition of the [if] that follows [parseAsync]:
    [!messages?.length || last.role !== 'user' || !last.content]. *)
Definition last_message_invalid (ms : list Message) : bool :=
  match ms with
  | [] => true
  | _ :: _ =>
      match last_message ms with
      | Some m => negb (role_eqb m.(role) user) || String.eqb m.(content) ""
      | None => true
      end
  end.

(** The [try] block of the route: the parsed parameters, or the message of
    the error that was caught. *)
Definition validate (body : json) : ErrorMessage + Params :=
  match requestParamsSchema body with
  | inl e => inl (ZodIssues e)
  | inr p =>
      if last_message_invalid p.(messages)
      then inl (Text "Invalid messages, last message must be from user")
      else inr p
  end.

(** ** The wire entities *)

Module Chunk.

Record Choice : Type := {
  delta_content : option json;      (* [delta: { content }] *)
  index : Z;
  finish_reason : nullable string
}.

Record t : Type := {
  id : string;
  object : string;
  created : Z;
  model : nullable ModelName;
  choices : list Choice
}.

End Chunk.

(** The body of [throwError]; [param] is always [null]. *)
Record ErrorBody : Type := {
  error_type : string;
  error_message : ErrorMessage;
  error_code : Z
}.

(** What [res] has been asked to put in the body. *)
Inductive Written : Type :=
| SseData (c : Chunk.t)       (* [`data: ${JSON.stringify(c)}\n\n`] *)
| Literal (s : string)        (* a string written as it is *)
| JsonError (e : ErrorBody).  (* [res.json({ error: e })] *)

(** The Express response. [head] is the status line and the headers as
    they left for the client, [None] while nothing has been flushed. Only
    the headers the route and [res.json] set are tracked. *)
Record ServerResponse : Type := {
  statusCode : Z;
  headers : obj string;
  head : option (Z * obj string);
  sent : list Written;
  ended : bool
}.

Definition fresh_response : ServerResponse :=
  {| statusCode := 200; headers := []; head := None; sent := [];
     ended := false |}.

(** Effects outside [res], in program order. *)
Inductive Effect : Type :=
| GetAvailableChatModelProviders
| GetAvailableEmbeddingModelProviders
| LoggerInfo (s : string)
| LoggerError (s : string) (err : string).

Record world : Type := {
  res : ServerResponse;
  started : bool;
  effects : list Effect
}.

Definition initial : world :=
  {| res := fresh_response; started := false; effects := [] |}.

(** ** Computations over the world

    A computation ends with a value or with a thrown exception; in both
    cases the world it leaves behind is kept. *)

Definition M (A : Type) : Type := world -> (exn + A) * world.

Definition ret {A : Type} (a : A) : M A := fun w => (inr a, w).

Definition throw {A : Type} (e : exn) : M A := fun w => (inl e, w).

Definition bind {A B : Type} (c : M A) (k : A -> M B) : M B :=
  fun w =>
    match c w with
    | (inr a, w') => k a w'
    | (inl e, w') => (inl e, w')
    end.

Notation "x <- c ;; k" := (bind c (fun x => k))
  (at level 61, c at next level, right associativity).
Notation "c ;; k" := (bind c (fun _ => k))
  (at level 61, right associativity).

Definition gets {A : Type} (f : world -> A) : M A := fun w => (inr (f w), w).

Definition modify (f : world -> world) : M unit := fun w => (inr tt, f w).

Definition on_res (f : ServerResponse -> ServerResponse) : M unit :=
  modify (fun w => {| res := f w.(res); started := w.(started);
                      effects := w.(effects) |}).

Definition set_started (b : bool) : M unit :=
  modify (fun w => {| res := w.(res); started := b; effects := w.(effects) |}).

Definition perform (e : Effect) : M unit :=
  modify (fun w => {| res := w.(res); started := w.(started);
                      effects := w.(effects) ++ [e] |}).

(** *** [res] *)

Definition flush (r : ServerResponse) : option (Z * obj string) :=
  match r.(head) with
  | Some h => Some h
  | None => Some (r.(statusCode), r.(headers))
  end.

(** [res.status(code)] *)
Definition res_status (code : Z) : M unit :=
  on_res (fun r => {| statusCode := code; headers := r.(headers);
                      head := r.(head); sent := r.(sent);
                      ended := r.(ended) |}).

(** [res.setHeader(name, value)] throws once the head has left. *)
Definition res_setHeader (name value : string) : M unit :=
  h <- gets (fun w => w.(res).(head)) ;;
  match h with
  | Some _ => throw ERR_HTTP_HEADERS_SENT
  | None =>
      on_res (fun r => {| statusCode := r.(statusCode);
                          headers := set name value r.(headers);
                          head := r.(head); sent := r.(sent);
                          ended := r.(ended) |})
  end.

(** [res.write(chunk)]: the first write flushes the head; a write after
    [end] is discarded (Node reports it on the stream, it does not throw). *)
Definition res_write (x : Written) : M unit :=
  on_res (fun r =>
    if r.(ended) then r
    else {| statusCode := r.(statusCode); headers := r.(headers);
            head := flush r; sent := r.(sent) ++ [x];
            ended := r.(ended) |}).

(** [res.end()] *)
Definition res_end : M unit :=
  on_res (fun r => {| statusCode := r.(statusCode); headers := r.(headers);
                      head := flush r; sent := r.(sent); ended := true |}).

(** [res.json(body)]: Express sets the content type unless one is set,
    sends the body and ends the response; it sets headers on the way and
    so throws when the head has left. *)
Definition res_json (e : ErrorBody) : M unit :=
  ct <- gets (fun w => get "Content-Type" w.(res).(headers)) ;;
  match ct with
  | Some _ => ret tt
  | None => res_setHeader "Content-Type" "application/json; charset=utf-8"
  end ;;
  h <- gets (fun w => w.(res).(head)) ;;
  match h with
  | Some _ => throw ERR_HTTP_HEADERS_SENT
  | None => res_write (JsonError e) ;; res_end
  end.

(** [throwError(res, { code, type, message })] *)
Definition throwError (code : Z) (type : string) (message : ErrorMessage)
  : M unit :=
  res_status code ;;
  res_json {| error_type := type; error_message := message;
              error_code := code |}.

(** ** The agent *)

(** The messages handed to the agent as history. *)
Inductive BaseMessage : Type :=
| HumanMessage (c : string)
| AIMessage (c : string)
| SystemMessage (c : string).

(** What the emitter returned by [handleWebSearch] emits. [now] is the
    reading of [Date.now()] while the listener runs. *)
Inductive AgentEvent : Type :=
| data (now : Z) (payload : string)
| end_ (now : Z)
| error (err : string).

(** The body of [history.map]. *)
Definition to_base_message (i : Message) : BaseMessage :=
  match i.(role) with
  | user => HumanMessage i.(content)
  | assistant => AIMessage i.(content)
  | system => SystemMessage i.(content)
  end.

(** [if (response_raw)] on [boolean | null]. *)
Definition truthy (v : nullable (optional bool)) : bool :=
  match v with
  | notnull (defined true) => true
  | _ => false
  end.

(** [v === s] for a string literal [s]. *)
Definition is_string (s : string) (v : option json) : bool :=
  match v with
  | Some (JStr s') => String.eqb s' s
  | _ => false
  end.

Definition DONE : string := "data: [DONE]" ++ LF ++ LF.

(** ** The route *)

Section Route.

Variables ChatModel Embeddings : Type.

(** [JSON.parse]; [None] when it throws a [SyntaxError]. *)
Variable JSON_parse : string -> option json.

(** What one request reads from outside the route. *)
Record Env : Type := {
  uuid_v4 : string;
  chatModelProviders : obj (obj ChatModel);
  embeddingModelProviders : obj (obj Embeddings);
  handleWebSearch :
    string -> list BaseMessage -> ChatModel -> Embeddings -> list AgentEvent
}.

(** *** The closures of the route

    [id], [model] and [response_raw] are the constants they capture. *)

Section Closures.

Variable id : string.
Variable json : Params.

Definition startStreamIfNeed : M unit :=
  s <- gets started ;;
  if negb s then
    set_started true ;;
    res_status 200 ;;
    res_setHeader "Content-Type" "text/event-stream" ;;
    res_setHeader "Cache-Control" "no-cache" ;;
    res_setHeader "Connection" "keep-alive"
  else ret tt.

Definition createDelta (now : Z) (content : option Js.json)
    (finish_reason : nullable string) : Chunk.t :=
  {| Chunk.id := id;
     Chunk.object := "chat.completion.chunk";
     Chunk.created := now / 1000;
     Chunk.model := json.(model);
     Chunk.choices :=
       [ {| Chunk.delta_content := content;
            Chunk.index := 0;
            Chunk.finish_reason := finish_reason |} ] |}.

(** The chunk [createDelta('', 'stop')]. *)
Definition stop_chunk (now : Z) : Chunk.t :=
  createDelta now (Some (JStr "")) (notnull "stop").

Definition writeDelta (now : Z) (content : option Js.json)
    (finish_reason : nullable string) : M unit :=
  startStreamIfNeed ;;
  res_write (SseData (createDelta now content finish_reason)).

(** [handler.on('data', ...)] *)
Definition on_data (now : Z) (payload : string) : M unit :=
  if truthy json.(response_raw) then
    writeDelta now (Some (JStr payload)) null
  else
    match JSON_parse payload with
    | None => throw SyntaxError
    | Some JNull => throw TypeError
    | Some parsedData =>
        if is_string "response" (prop "type" parsedData)
        then writeDelta now (prop "data" parsedData) null
        else ret tt
    end.

(** What [on_data] writes for one event. *)
Definition emitted (d : Z * string) : list Chunk.t :=
  if truthy json.(response_raw) then
    [createDelta (fst d) (Some (JStr (snd d))) null]
  else
    match JSON_parse (snd d) with
    | None | Some JNull => []
    | Some parsedData =>
        if is_string "response" (prop "type" parsedData)
        then [createDelta (fst d) (prop "data" parsedData) null]
        else []
    end.

(** What [on_data] throws for one event. *)
Definition thrown (d : Z * string) : list exn :=
  if truthy json.(response_raw) then []
  else
    match JSON_parse (snd d) with
    | None => [SyntaxError]
    | Some JNull => [TypeError]
    | Some _ => []
    end.

(** [handler.on('end', ...)] *)
Definition on_end (now : Z) : M unit :=
  writeDelta now (Some (JStr "")) (notnull "stop") ;;
  res_write (Literal DONE) ;;
  res_end.

(** [handler.on('error', ...)] *)
Definition on_error (err : string) : M unit :=
  perform (LoggerError "openai stream error" err) ;;
  s <- gets started ;;
  if s then res_end
  else throwError 500 "internal_server_error"
         (Text "An error has occurred please try again later").

Definition listener (ev : AgentEvent) : M unit :=
  match ev with
  | data now payload => on_data now payload
  | end_ now => on_end now
  | error err => on_error err
  end.

(** The emitter calls the listeners in emission order. An exception of a
    listener surfaces in the agent's [emit]; it is recorded and the next
    event, if the agent emits one, is delivered to the world as the
    listener left it. *)
Fixpoint deliver (evs : list AgentEvent) (w : world) : list exn * world :=
  match evs with
  | [] => ([], w)
  | ev :: rest =>
      match listener ev w with
      | (inr _, w') => deliver rest w'
      | (inl e, w') => let (es, w'') := deliver rest w' in (e :: es, w'')
      end
  end.

End Closures.

(** [Object.keys(o)[0]] for an [o] that may be [undefined]. *)
Definition Object_keys_0 {V : Type} (o : option (obj V))
  : M (option string) :=
  match o with
  | None => throw TypeError
  | Some m => ret (first_key m)
  end.

(** [providers[provider] && providers[provider][model]] *)
Definition pick {V : Type} (providers : obj (obj V))
    (provider model : option string) : option V :=
  match at_key providers provider with
  | Some models => at_key models model
  | None => None
  end.

(** The body of the route callback up to the registration of the
    listeners. It yields the events the agent goes on to emit, or [None]
    when the callback returned before starting the agent; a [throw] is a
    rejection of the callback's promise. *)
Definition setup (env : Env) (body : Js.json)
  : M (option (Params * list AgentEvent)) :=
  match validate body with
  | inl message =>
      throwError 400 "invalid_request_error" message ;;
      ret None
  | inr json =>
      perform GetAvailableChatModelProviders ;;
      perform GetAvailableEmbeddingModelProviders ;;
      let chatModelProvider := first_key env.(chatModelProviders) in
      chatModel <-
        Object_keys_0 (at_key env.(chatModelProviders) chatModelProvider) ;;
      let embeddingModelProvider := first_key env.(embeddingModelProviders) in
      embeddingModel <-
        Object_keys_0
          (at_key env.(embeddingModelProviders) embeddingModelProvider) ;;
      let llm := pick env.(chatModelProviders) chatModelProvider chatModel in
      let embeddings :=
        pick env.(embeddingModelProviders) embeddingModelProvider
          embeddingModel in
      match llm, embeddings with
      | Some llm, Some embeddings =>
          let history := removelast json.(messages) in
          match last_message json.(messages) with
          | None => throw TypeError      (* [message.content] on [undefined] *)
          | Some message =>
              perform
                (LoggerInfo
                   ("searching("
                      ++ match chatModel with
                         | Some s => s | None => "undefined" end
                      ++ " - "
                      ++ match embeddingModel with
                         | Some s => s | None => "undefined" end
                      ++ "): " ++ message.(content))%string) ;;
              ret (Some (json,
                         env.(handleWebSearch) message.(content)
                           (map to_base_message history) llm embeddings))
          end
      | _, _ =>
          throwError 500 "internal_server_error"
            (Text "Model or Embedding not found") ;;
          ret None
      end
  end.

(** How the promise of the callback settled, the exceptions that surfaced
    in the agent's [emit], and the world at the end. *)
Record Outcome : Type := {
  rejected : option exn;
  raised : list exn;
  final : world
}.

(** [router.post('/chat/completions', ...)] on one request. *)
Definition post_chat_completions (env : Env) (body : Js.json) : Outcome :=
  match setup env body initial with
  | (inl e, w) => {| rejected := Some e; raised := []; final := w |}
  | (inr None, w) => {| rejected := None; raised := []; final := w |}
  | (inr (Some (json, evs)), w) =>
      let (es, w') := deliver env.(uuid_v4) json evs w in
      {| rejected := None; raised := es; final := w' |}
  end.

End Route.

Arguments post_chat_completions {ChatModel Embeddings} JSON_parse env body.
Arguments setup {ChatModel Embeddings} env body _.

(** ** States of the bridge *)

Definition sse_headers : obj string :=
  [("Content-Type", "text/event-stream");
   ("Cache-Control", "no-cache");
   ("Connection", "keep-alive")].

Definition json_headers : obj string :=
  [("Content-Type", "application/json; charset=utf-8")].

(** The response once the stream has started: status 200 and the three
    headers have left, [xs] has been written, the body is open. *)
Definition streaming (xs : list Written) : ServerResponse :=
  {| statusCode := 200; headers := sse_headers;
     head := Some (200, sse_headers); sent := xs; ended := false |}.

(** The response after [throwError] on an untouched [res]. *)
Definition failed (code : Z) (type : string) (message : ErrorMessage)
  : ServerResponse :=
  {| statusCode := code; headers := json_headers;
     head := Some (code, json_headers);
     sent := [JsonError {| error_type := type; error_message := message;
                           error_code := code |}];
     ended := true |}.

(** The world while the agent runs and the listeners have written [xs]:
    untouched until the first chunk, streaming from then on. *)
Definition bridging (fx : list Effect) (xs : list Written) : world :=
  match xs with
  | [] => {| res := fresh_response; started := false; effects := fx |}
  | _ :: _ => {| res := streaming xs; started := true; effects := fx |}
  end.

(** The response closed by [res.end()] after [xs]. *)
Definition closed (xs : list Written) : ServerResponse :=
  {| statusCode := 200; headers := sse_headers;
     head := Some (200, sse_headers); sent := xs; ended := true |}.

Definition data' (d : Z * string) : AgentEvent := data (fst d) (snd d).

(** The request [body] is accepted, both models are found, and the agent
    started for it emits [evs]. *)
Definition serves {ChatModel Embeddings : Type}
    (env : Env ChatModel Embeddings) (body : json) (p : Params)
    (evs : list AgentEvent) : Prop :=
  exists w0, setup env body initial = (inr (Some (p, evs)), w0).

Definition has_finish_reason (c : Chunk.t) : bool :=
  existsb (fun ch => match ch.(Chunk.finish_reason) with
                     | null => false
                     | notnull _ => true
                     end) c.(Chunk.choices).

Definition is_stop (x : Written) : bool :=
  match x with
  | SseData c =>
      existsb (fun ch => match ch.(Chunk.finish_reason) with
                         | notnull r => String.eqb r "stop"
                         | null => false
                         end) c.(Chunk.choices)
  | _ => false
  end.

(** ** A reader for JSON texts

    The route is parametric in [JSON.parse]. The examples run it with this
    reader, which covers the texts without fractions, exponents and
    [\u] escapes (it rejects the others). *)

Module Reference.

Definition DQUOTE : ascii := ascii_of_nat 34.
Definition BACKSLASH : ascii := ascii_of_nat 92.

Definition is_ws (c : ascii) : bool :=
  let n := nat_of_ascii c in
  ((n =? 32) || (n =? 9) || (n =? 10) || (n =? 13))%nat.

Definition digit (c : ascii) : option Z :=
  let n := nat_of_ascii c in
  if ((48 <=? n) && (n <=? 57))%nat then Some (Z.of_nat n - 48) else None.

Fixpoint skip_ws (s : list ascii) : list ascii :=
  match s with
  | c :: r => if is_ws c then skip_ws r else s
  | [] => []
  end.

Fixpoint digits (acc : Z) (s : list ascii) : Z * list ascii :=
  match s with
  | c :: r =>
      match digit c with
      | Some d => digits (10 * acc + d) r
      | None => (acc, s)
      end
  | [] => (acc, [])
  end.

(** An integer without its sign: no leading zero. *)
Definition natural (s : list ascii) : option (Z * list ascii) :=
  match s with
  | c :: r =>
      match digit c with
      | Some 0 =>
          match r with
          | c' :: _ => match digit c' with Some _ => None | None => Some (0, r) end
          | [] => Some (0, r)
          end
      | Some d => Some (digits d r)
      | None => None
      end
  | [] => None
  end.

Definition unescape (c : ascii) : option ascii :=
  match nat_of_ascii c with
  | 34%nat => Some DQUOTE
  | 92%nat => Some BACKSLASH
  | 47%nat => Some (ascii_of_nat 47)
  | 98%nat => Some (ascii_of_nat 8)
  | 102%nat => Some (ascii_of_nat 12)
  | 110%nat => Some (ascii_of_nat 10)
  | 114%nat => Some (ascii_of_nat 13)
  | 116%nat => Some (ascii_of_nat 9)
  | _ => None
  end.

Definition cons_char (c : ascii) (r : option (string * list ascii))
  : option (string * list ascii) :=
  match r with
  | Some (t, rest) => Some (String c t, rest)
  | None => None
  end.

(** The characters of a string literal after its opening quote. *)
Fixpoint chars (s : list ascii) : option (string * list ascii) :=
  match s with
  | [] => None
  | c :: r =>
      if Ascii.eqb c DQUOTE then Some (EmptyString, r)
      else if Ascii.eqb c BACKSLASH then
        match r with
        | e :: r' =>
            match unescape e with
            | Some x => cons_char x (chars r')
            | None => None
            end
        | [] => None
        end
      else if (nat_of_ascii c <? 32)%nat then None
      else cons_char c (chars r)
  end.

Definition keyword (k : string) (s : list ascii) : option (list ascii) :=
  let n := String.length k in
  if list_eq_dec ascii_dec (firstn n s) (list_ascii_of_string k)
  then Some (skipn n s) else None.

Fixpoint value (fuel : nat) (s : list ascii) {struct fuel}
  : option (json * list ascii) :=
  match fuel with
  | O => None
  | S n =>
      match skip_ws s with
      | [] => None
      | c :: r =>
          if Ascii.eqb c DQUOTE then
            match chars r with
            | Some (t, rest) => Some (JStr t, rest)
            | None => None
            end
          else if Ascii.eqb c "["%char then
            match skip_ws r with
            | c' :: r' =>
                if Ascii.eqb c' "]"%char then Some (JArr [], r')
                else
                  match elements n (c' :: r') with
                  | Some (l, rest) => Some (JArr l, rest)
                  | None => None
                  end
            | [] => None
            end
          else if Ascii.eqb c "{"%char then
            match skip_ws r with
            | c' :: r' =>
                if Ascii.eqb c' "}"%char then Some (JObj [], r')
                else
                  match members n (c' :: r') with
                  | Some (o, rest) =>
                      Some (JObj (fold_left
                                    (fun acc kv => set (fst kv) (snd kv) acc)
                                    o []), rest)
                  | None => None
                  end
            | [] => None
            end
          else if Ascii.eqb c "-"%char then
            match natural r with
            | Some (z, rest) => Some (JNum (- z), rest)
            | None => None
            end
          else
            match natural (c :: r) with
            | Some (z, rest) => Some (JNum z, rest)
            | None =>
                match keyword "null" (c :: r), keyword "true" (c :: r),
                      keyword "false" (c :: r) with
                | Some rest, _, _ => Some (JNull, rest)
                | _, Some rest, _ => Some (JBool true, rest)
                | _, _, Some rest => Some (JBool false, rest)
                | _, _, _ => None
                end
            end
      end
  end

with elements (fuel : nat) (s : list ascii) {struct fuel}
  : option (list json * list ascii) :=
  match fuel with
  | O => None
  | S n =>
      match value n s with
      | Some (v, rest) =>
          match skip_ws rest with
          | c :: r =>
              if Ascii.eqb c "]"%char then Some ([v], r)
              else if Ascii.eqb c ","%char then
                match elements n r with
                | Some (l, rest') => Some (v :: l, rest')
                | None => None
                end
              else None
          | [] => None
          end
      | None => None
      end
  end

with members (fuel : nat) (s : list ascii) {struct fuel}
  : option (obj json * list ascii) :=
  match fuel with
  | O => None
  | S n =>
      match skip_ws s with
      | q :: r =>
          if Ascii.eqb q DQUOTE then
            match chars r with
            | Some (k, rest) =>
                match skip_ws rest with
                | c :: r1 =>
                    if Ascii.eqb c ":"%char then
                      match value n r1 with
                      | Some (v, rest1) =>
                          match skip_ws rest1 with
                          | c' :: r2 =>
                              if Ascii.eqb c' "}"%char then Some ([(k, v)], r2)
                              else if Ascii.eqb c' ","%char then
                                match members n r2 with
                                | Some (o, rest2) => Some ((k, v) :: o, rest2)
                                | None => None
                                end
                              else None
                          | [] => None
                          end
                      | None => None
                      end
                    else None
                | [] => None
                end
            | None => None
            end
          else None
      | [] => None
      end
  end.

Definition JSON_parse (text : string) : option json :=
  let s := list_ascii_of_string text in
  match value (2 * List.length s + 2) s with
  | Some (v, rest) =>
      match skip_ws rest with
      | [] => Some v
      | _ :: _ => None
      end
  | None => None
  end.

(** Writing a JSON text in a Rocq string: every ['] stands for a double
    quote. *)
Fixpoint q (s : string) : string :=
  match s with
  | EmptyString => EmptyString
  | String c r =>
      String (if Ascii.eqb c "'"%char then DQUOTE else c) (q r)
  end.

End Reference.

(** The reading of the clock that comes with an event. *)
Definition event_time (ev : AgentEvent) : option Z :=
  match ev with
  | data now _ | end_ now => Some now
  | error _ => None
  end.

(** ** What a computation adds to the body *)

(** [c] only ever appends to the body, and what it appends satisfies [P]. *)
Definition appends {A : Type} (P : Written -> Prop) (c : M A) : Prop :=
  forall w, exists xs,
    sent (res (snd (c w))) = sent (res w) ++ xs /\ Forall P xs.

(** What the listener of the event [ev] may write. *)
Definition written_by (JSON_parse : string -> option json) (id : string)
    (p : Params) (ev : AgentEvent) (x : Written) : Prop :=
  match ev, x with
  | data now payload, SseData c =>
      exists content,
        c = createDelta id p now content null
        /\ if truthy p.(response_raw) then content = Some (JStr payload)
           else exists v, JSON_parse payload = Some v
                          /\ is_string "response" (prop "type" v) = true
                          /\ content = prop "data" v
  | end_ now, SseData c => c = stop_chunk id p now
  | end_ now, Literal s => s = DONE
  | error _, JsonError e => e.(error_type) = "internal_server_error"
  | _, _ => False
  end.

(** ** The OpenAI provider

    The two loaders that follow the router in [src/routes/index.ts]; they
    turn the configuration into the model maps of the provider. The classes [ChatOpenAI] and
    [OpenAIEmbeddings] come from a library; their constructors are
    parameters that return the instance or the error they throw. The
    configuration getters are read once per call and are inputs. *)

Module OpenAI.

(** What the getters of [config] return; [None] is [undefined]. *)
Record Config : Type := {
  getOpenaiApiKey : option string;
  getOpenaiApiEndpoint : option string;
  getOpenaiModel : option string;
  getOpenaiEmbeddingsModel : option string
}.

(** The fields of [new ChatOpenAI({...})]; [configuration.baseURL] is the
    endpoint as the getter returned it. *)
Record ChatFields : Type := {
  chat_modelName : string;
  chat_temperature : QArith_base.Q;
  chat_openAIApiKey : string;
  chat_baseURL : option string
}.

(** The fields of [new OpenAIEmbeddings({...})]. *)
Record EmbeddingsFields : Type := {
  emb_modelName : string;
  emb_openAIApiKey : string;
  emb_baseURL : option string
}.

(** The calls to [logger]. *)
Inductive Log : Type :=
| info (s : string)
| error_ (s : string).

(** [if (v)] on a string that may be [undefined]: the value when it is a
    non-empty string. *)
Definition if_set (v : option string) : option string :=
  match v with
  | Some s => if String.eqb s "" then None else Some s
  | None => None
  end.

(** An object literal whose values are [new C(fields)]: the constructors
    run in the order of the keys and the first throw leaves the literal. *)
Fixpoint literal {F H : Type} (new : F -> string + H)
    (entries : list (string * F)) : string + obj H :=
  match entries with
  | [] => inr []
  | (k, f) :: rest =>
      match new f with
      | inl err => inl err
      | inr h =>
          match literal new rest with
          | inl err => inl err
          | inr o => inr ((k, h) :: o)
          end
      end
  end.

Definition chat_fields (openAIApiKey : string) (apiEndpoint : option string)
    (modelName : string) : ChatFields :=
  {| chat_modelName := modelName;
     chat_temperature := QArith_base.Qmake 7 10;
     chat_openAIApiKey := openAIApiKey;
     chat_baseURL := apiEndpoint |}.

Definition embeddings_fields (openAIApiKey : string)
    (apiEndpoint : option string) (modelName : string) : EmbeddingsFields :=
  {| emb_modelName := modelName;
     emb_openAIApiKey := openAIApiKey;
     emb_baseURL := apiEndpoint |}.

(** The keys of [chatModels] with their [modelName]. *)
Definition chatModels : list (string * string) :=
  [("GPT-3.5 turbo", "gpt-3.5-turbo");
   ("GPT-4", "gpt-4");
   ("GPT-4 turbo", "gpt-4-turbo");
   ("GPT-4 omni", "gpt-4o");
   ("GPT-4 omni mini", "gpt-4o-mini")].

(** The keys of [embeddingModels] with their [modelName]. *)
Definition embeddingModels : list (string * string) :=
  [("Text embedding 3 small", "text-embedding-3-small");
   ("Text embedding 3 large", "text-embedding-3-large")].

Definition endpoint_log (apiEndpoint : option string) : list Log :=
  match if_set apiEndpoint with
  | Some e => [info ("OpenAI 使用自定义 API 端点： " ++ e)%string]
  | None => []
  end.

Section Loaders.

Variables ChatModel Embeddings : Type.
Variable new_ChatOpenAI : ChatFields -> string + ChatModel.
Variable new_OpenAIEmbeddings : EmbeddingsFields -> string + Embeddings.

(** [loadOpenAIChatModels]: what it logs and the map it resolves to. *)
Definition loadOpenAIChatModels (config : Config)
  : list Log * obj ChatModel :=
  let apiEndpoint := config.(getOpenaiApiEndpoint) in
  match if_set config.(getOpenaiApiKey) with
  | None => ([], [])
  | Some openAIApiKey =>
      let logged := endpoint_log apiEndpoint in
      match if_set config.(getOpenaiModel) with
      | Some model =>
          let logged :=
            logged ++ [info ("OpenAI 使用自定义模型： " ++ model)%string] in
          match literal new_ChatOpenAI
                  [(model, chat_fields openAIApiKey apiEndpoint model)] with
          | inr models => (logged, models)
          | inl err =>
              (logged ++ [error_ ("Error loading OpenAI models: " ++ err)%string],
               [])
          end
      | None =>
          match literal new_ChatOpenAI
                  (map (fun e => (fst e,
                                  chat_fields openAIApiKey apiEndpoint (snd e)))
                       chatModels) with
          | inr models => (logged, models)
          | inl err =>
              (logged ++ [error_ ("Error loading OpenAI models: " ++ err)%string],
               [])
          end
      end
  end.

(** [loadOpenAIEmbeddingsModels] *)
Definition loadOpenAIEmbeddingsModels (config : Config)
  : list Log * obj Embeddings :=
  let apiEndpoint := config.(getOpenaiApiEndpoint) in
  match if_set config.(getOpenaiApiKey) with
  | None => ([], [])
  | Some openAIApiKey =>
      let logged := endpoint_log apiEndpoint in
      match if_set config.(getOpenaiEmbeddingsModel) with
      | Some model =>
          let logged :=
            logged ++ [info ("OpenAI 使用自定义嵌入模型： " ++ model)%string] in
          match literal new_OpenAIEmbeddings
                  [(model, embeddings_fields openAIApiKey apiEndpoint model)]
          with
          | inr models => (logged, models)
          | inl err =>
              (logged
                 ++ [error_ ("Error loading OpenAI embeddings model: "
                               ++ err)%string],
               [])
          end
      | None =>
          match literal new_OpenAIEmbeddings
                  (map (fun e => (fst e,
                                  embeddings_fields openAIApiKey apiEndpoint
                                    (snd e)))
                       embeddingModels) with
          | inr models => (logged, models)
          | inl err =>
              (logged
                 ++ [error_ ("Error loading OpenAI embeddings model: "
                               ++ err)%string],
               [])
          end
      end
  end.

End Loaders.

End OpenAI.

(** The keys [requestParamsSchema] reads. *)
Definition schema_keys : list string :=
  ["messages"; "model"; "stream"; "temperature"; "frequency_penalty";
   "max_tokens"; "presence_penalty"; "top_p"; "stop"; "response_raw"].

(** The keys whose value must be a number or [null]. *)
Definition number_keys : list string :=
  ["temperature"; "frequency_penalty"; "max_tokens"; "presence_penalty";
   "top_p"].

(** The keys whose value must be a boolean or [null]. *)
Definition boolean_keys : list string := ["stream"; "response_raw"].

(** ** What a computation keeps *)

(** [c] keeps [I]: it holds after [c], thrown or not, if it held before. *)
Definition keeps {A : Type} (I : world -> Prop) (c : M A) : Prop :=
  forall w, I w -> I (snd (c w)).

(** The data listener returns on the event [d] (it does not throw). *)
Definition returns (JSON_parse : string -> option json) (p : Params)
    (d : Z * string) : bool :=
  match thrown JSON_parse p d with
  | [] => true
  | _ :: _ => false
  end.

(** The errors the agent signals, in order. *)
Definition errors_of (evs : list AgentEvent) : list string :=
  flat_map (fun ev => match ev with error err => [err] | _ => [] end) evs.

(** The responses a request can be in while and after the agent runs:
    nothing or chunks only on an open event stream; a closed event stream
    without an error object; the JSON error alone. *)
Definition coherent (w : world) : Prop :=
  (exists fx cs, w = bridging fx (map SseData cs))
  \/ (head (res w) = Some (200, sse_headers)
      /\ ended (res w) = true
      /\ forall e, ~ In (JsonError e) (sent (res w)))
  \/ (head (res w) = Some (500, json_headers)
      /\ ended (res w) = true
      /\ exists e, sent (res w) = [JsonError e]).

(** ** The words of the specification *)

Module Spec.


(** The last message of the body is not a non-empty user message. *)
Definition last_not_user_text (items : list json) : Prop :=
  items = [] \/
  exists m, nth_error items (length items - 1) = Some m
            /\ (prop "role" m <> Some (JStr "user")
                \/ prop "content" m = Some (JStr "")).

End Spec.

(** ** Requests and agents for the examples *)

Module Examples.

Import Reference.

Definition message (r c : string) : json :=
  JObj [("role", JStr r); ("content", JStr c)].

Definition request (ms : list json) (more : obj json) : json :=
  JObj (("messages", JArr ms) :: more).

(** One provider with one model in each catalog, and an agent that emits
    [evs] whatever it is asked. *)
Definition env (evs : list AgentEvent) : Env unit unit :=
  {| uuid_v4 := "b5a1c2d3";
     chatModelProviders := [("openai", [("GPT-4 omni", tt)])];
     embeddingModelProviders :=
       [("openai", [("Text embedding 3 small", tt)])];
     handleWebSearch := fun _ _ _ _ => evs |}.

Definition rust : json :=
  request [message "user" "What is Rust ownership?"] [].

Definition rust_raw : json :=
  request [message "user" "What is Rust ownership?"]
          [("response_raw", JBool true)].

Definition response_event : string :=
  q "{'type':'response','data':'Rust ownership is...'}".

Definition sources_event : string :=
  q "{'type':'sources','data':[{'url':'https://doc.rust-lang.org'}]}".


(** The parameters the schema yields for a body that gives [ms] only. *)
Definition params (ms : list Message) (raw : bool) : Params :=
  {| messages := ms;
     model := notnull perplexica;
     stream := notnull false;
     temperature := notnull (defined 1);
     frequency_penalty := notnull undefined;
     max_tokens := notnull undefined;
     presence_penalty := notnull undefined;
     top_p := notnull undefined;
     stop := notnull undefined;
     response_raw := notnull (defined raw) |}.

Definition rust_params : Params :=
  params [ {| role := user; content := "What is Rust ownership?" |} ] false.

(** Clock readings, in milliseconds. *)
Definition t1 : Z := 1730570000250.
Definition t2 : Z := 1730570001900.
Definition t3 : Z := 1730570002100.

(** One progress event, one answer fragment. *)
Definition answer : list (Z * string) :=
  [(t1, sources_event); (t2, response_event)].

(** Progress only. *)
Definition progress : list (Z * string) := [(t1, sources_event)].

(** The last message is the assistant's. *)
Definition assistant_last : obj json :=
  [("messages", JArr [message "user" "hi"; message "assistant" "hello"])].


(** No embedding provider is configured. *)
Definition no_embeddings : Env unit unit :=
  {| uuid_v4 := "b5a1c2d3";
     chatModelProviders := [("openai", [("GPT-4 omni", tt)])];
     embeddingModelProviders := [];
     handleWebSearch := fun _ _ _ _ => [] |}.

Definition rust_messages : json :=
  JArr [message "user" "What is Rust ownership?"].

Definition streamed : obj json :=
  [("messages", rust_messages); ("stream", JBool true)].

Definition unstreamed : obj json := [("messages", rust_messages)].

End Examples.

(** ** More requests, configurations and worlds for the examples *)

Module Cases.

Import Reference Examples OpenAI.

(** [model: null]. *)
Definition null_model : obj json :=
  [("messages", rust_messages); ("model", JNull)].

Definition null_model_params : Params :=
  {| messages :=
       [ {| role := user; content := "What is Rust ownership?" |} ];
     model := null;
     stream := notnull false;
     temperature := notnull (defined 1);
     frequency_penalty := notnull undefined;
     max_tokens := notnull undefined;
     presence_penalty := notnull undefined;
     top_p := notnull undefined;
     stop := notnull undefined;
     response_raw := notnull (defined false) |}.

(** A model the route does not know. *)
Definition other_model : obj json :=
  [("messages", rust_messages); ("model", JStr "gpt-4o")].

(** A temperature that is not a number. *)
Definition hot : obj json :=
  [("messages", rust_messages); ("temperature", JStr "hot")].

(** A key outside the schema. *)
Definition with_user : obj json :=
  [("messages", rust_messages); ("user", JStr "u-17")].

Definition cold : obj json :=
  [("messages", rust_messages); ("temperature", JNum 0)].

Definition short : obj json :=
  [("messages", rust_messages); ("max_tokens", JNum 16);
   ("stop", JArr [JStr "."])].


(** A response event whose data is a number, and one without data. *)
Definition number_event : string := q "{'type':'response','data':5}".
Definition bare_event : string := q "{'type':'response'}".

(** The first chat provider has no model. *)
Definition no_chat_model : Env unit unit :=
  {| uuid_v4 := "b5a1c2d3";
     chatModelProviders := [("custom_openai", []); ("openai", [("GPT-4", tt)])];
     embeddingModelProviders := [("openai", [("Text embedding 3 small", tt)])];
     handleWebSearch := fun _ _ _ _ => [] |}.

(** The world after the JSON error of the error listener. *)
Definition after_failure : world :=
  {| res := failed 500 "internal_server_error"
              (Text "An error has occurred please try again later");
     started := false; effects := [] |}.

Definition internal_error : ErrorBody :=
  {| error_type := "internal_server_error";
     error_message := Text "An error has occurred please try again later";
     error_code := 500 |}.

(** Constructors that keep the fields they are given. *)
Definition new_chat (f : ChatFields) : string + ChatFields := inr f.
Definition new_embeddings (f : EmbeddingsFields) : string + EmbeddingsFields :=
  inr f.

(** A constructor that throws for one model. *)
Definition new_chat_but_turbo (f : ChatFields) : string + ChatFields :=
  if String.eqb f.(chat_modelName) "gpt-4-turbo"
  then inl "Error: model not available" else inr f.

Definition with_key : Config :=
  {| getOpenaiApiKey := Some "sk-test";
     getOpenaiApiEndpoint := Some "https://llm.example.com/v1";
     getOpenaiModel := None;
     getOpenaiEmbeddingsModel := None |}.

Definition with_models : Config :=
  {| getOpenaiApiKey := Some "sk-test";
     getOpenaiApiEndpoint := None;
     getOpenaiModel := Some "gpt-4.1";
     getOpenaiEmbeddingsModel := Some "text-embedding-ada-002" |}.

Definition without_key : Config :=
  {| getOpenaiApiKey := Some "";
     getOpenaiApiEndpoint := Some "https://llm.example.com/v1";
     getOpenaiModel := Some "gpt-4.1";
     getOpenaiEmbeddingsModel := None |}.

(** A registry with the OpenAI provider first in both catalogs. *)
Definition openai_env (config : Config) (evs : list AgentEvent)
  : Env ChatFields EmbeddingsFields :=
  {| uuid_v4 := "b5a1c2d3";
     chatModelProviders :=
       [("openai", snd (loadOpenAIChatModels new_chat config))];
     embeddingModelProviders :=
       [("openai", snd (loadOpenAIEmbeddingsModels new_embeddings config))];
     handleWebSearch := fun _ _ _ _ => evs |}.

End Cases.

(** * Properties *)

Section Bridge.

Variable JSON_parse : string -> option json.
Variable id : string.
Variable json : Params.

Local Abbreviation on_data' := (on_data JSON_parse id json).
Local Abbreviation on_end' := (on_end id json).
Local Abbreviation on_error' := on_error.
Local Abbreviation listener' := (listener JSON_parse id json).
Local Abbreviation deliver' := (deliver JSON_parse id json).
Local Abbreviation createDelta' := (createDelta id json).
Local Abbreviation writeDelta' := (writeDelta id json).
Local Abbreviation emitted' := (emitted JSON_parse id json).
Local Abbreviation thrown' := (thrown JSON_parse json).
Local Abbreviation stop_chunk' := (stop_chunk id json).


Lemma bridging_snoc fx xs x :
  bridging fx (xs ++ [x]) =
  {| res := streaming (xs ++ [x]); started := true; effects := fx |}.
Proof. destruct xs; reflexivity. Qed.

Lemma writeDelta_bridging fx xs now c fr :
  writeDelta' now c fr (bridging fx xs) =
  (inr tt, bridging fx (xs ++ [SseData (createDelta' now c fr)])).
Proof.
  rewrite bridging_snoc. destruct xs; reflexivity.
Qed.

Lemma on_data_bridging fx xs d :
  on_data' (fst d) (snd d) (bridging fx xs) =
  (match thrown' d with [] => inr tt | e :: _ => inl e end,
   bridging fx (xs ++ map SseData (emitted' d))).
Proof.
  unfold on_data, emitted, thrown.
  destruct (truthy (response_raw json)).
  - apply writeDelta_bridging.
  - destruct (JSON_parse (snd d)) as [v|]; [|now rewrite app_nil_r].
    destruct v; try (now rewrite app_nil_r);
      (destruct (is_string _ _);
       [apply writeDelta_bridging | now rewrite app_nil_r]).
Qed.

Lemma deliver_data fx ds : forall xs,
  deliver' (map data' ds) (bridging fx xs) =
  (flat_map thrown' ds,
   bridging fx (xs ++ map SseData (flat_map emitted' ds))).
Proof.
  induction ds as [|d ds IH]; intros xs; simpl.
  - now rewrite app_nil_r.
  - rewrite on_data_bridging, map_app, app_assoc.
    destruct (thrown' d) as [|e es] eqn:E.
    + rewrite IH. reflexivity.
    + rewrite IH. simpl.
      assert (es = []) as ->; [|reflexivity].
      unfold thrown in E. destruct (truthy _); [discriminate|].
      destruct (JSON_parse (snd d)) as [[]|]; congruence.
Qed.

Lemma deliver_app evs1 : forall evs2 w,
  deliver' (evs1 ++ evs2) w =
  (fst (deliver' evs1 w) ++ fst (deliver' evs2 (snd (deliver' evs1 w))),
   snd (deliver' evs2 (snd (deliver' evs1 w)))).
Proof.
  induction evs1 as [|ev evs1 IH]; intros evs2 w; simpl.
  - now destruct (deliver' evs2 w).
  - destruct (listener' ev w) as [[e|[]] w1].
    + rewrite IH. destruct (deliver' evs1 w1) as [es w2]. reflexivity.
    + apply IH.
Qed.

Lemma on_end_bridging fx xs now :
  on_end' now (bridging fx xs) =
  (inr tt,
   {| res := closed (xs ++ [SseData (stop_chunk' now); Literal DONE]);
      started := true; effects := fx |}).
Proof.
  unfold on_end. unfold bind at 1.
  rewrite writeDelta_bridging, bridging_snoc.
  cbn. now rewrite <- app_assoc.
Qed.

Lemma on_error_fresh fx err :
  on_error' err (bridging fx []) =
  (inr tt,
   {| res := failed 500 "internal_server_error"
               (Text "An error has occurred please try again later");
      started := false;
      effects := fx ++ [LoggerError "openai stream error" err] |}).
Proof. reflexivity. Qed.

Lemma on_error_streaming fx x xs err :
  on_error' err (bridging fx (x :: xs)) =
  (inr tt,
   {| res := closed (x :: xs); started := true;
      effects := fx ++ [LoggerError "openai stream error" err] |}).
Proof. reflexivity. Qed.

Lemma emitted_no_finish_reason d :
  Forall (fun c => has_finish_reason c = false) (emitted' d).
Proof.
  unfold emitted.
  destruct (truthy _); [now repeat constructor|].
  destruct (JSON_parse (snd d)) as [[]|]; try constructor;
    destruct (is_string _ _); now repeat constructor.
Qed.

Lemma deltas_no_finish_reason ds :
  Forall (fun c => has_finish_reason c = false) (flat_map emitted' ds).
Proof.
  induction ds; simpl; [constructor|].
  apply Forall_app. split; [apply emitted_no_finish_reason | assumption].
Qed.

Lemma deltas_not_stop ds :
  filter is_stop (map SseData (flat_map emitted' ds)) = [].
Proof.
  pose proof (deltas_no_finish_reason ds) as H.
  induction H as [|c l Hc _ IH]; simpl; [reflexivity|].
  rewrite IH.
  replace (existsb _ (Chunk.choices c)) with false; [reflexivity|].
  symmetry. unfold has_finish_reason in Hc.
  induction (Chunk.choices c) as [|ch chs IHc]; simpl in *; [reflexivity|].
  apply orb_false_iff in Hc as [H1 H2].
  rewrite (IHc H2). destruct (Chunk.finish_reason ch); [reflexivity|discriminate].
Qed.

End Bridge.

(** ** The route before the agent *)

Section Requests.

Variables ChatModel Embeddings : Type.
Implicit Types env : Env ChatModel Embeddings.

Lemma setup_invalid env body m :
  validate body = inl m ->
  setup env body initial =
  (inr None,
   {| res := failed 400 "invalid_request_error" m; started := false;
      effects := [] |}).
Proof. intros H. unfold setup. rewrite H. reflexivity. Qed.

Lemma setup_ready env body p evs w0 :
  setup env body initial = (inr (Some (p, evs)), w0) ->
  validate body = inr p /\ exists fx, w0 = bridging fx [].
Proof.
  unfold setup. destruct (validate body) as [m|p']; [discriminate|].
  destruct (chatModelProviders env) as [|[cp [|[cm llm] ?]] ?];
    destruct (embeddingModelProviders env) as [|[ep [|[em emb] ?]] ?];
    cbn; unfold pick, at_key; cbn; repeat (rewrite String.eqb_refl; cbn);
    try discriminate.
  destruct (last_message (messages p')) as [message|]; cbn; [|discriminate].
  intros H. injection H as <- <- <-. split; [reflexivity|].
  eexists. reflexivity.
Qed.

End Requests.

(** ** The stream *)

Section Stream.

Variables ChatModel Embeddings : Type.
Variable JSON_parse : string -> option json.
Implicit Types env : Env ChatModel Embeddings.

Local Abbreviation post := (post_chat_completions JSON_parse).

Lemma post_serves env body p evs w0 :
  setup env body initial = (inr (Some (p, evs)), w0) ->
  post env body =
  {| rejected := None;
     raised := fst (deliver JSON_parse (uuid_v4 env) p evs w0);
     final := snd (deliver JSON_parse (uuid_v4 env) p evs w0) |}.
Proof.
  intros H. unfold post_chat_completions. rewrite H.
  now destruct (deliver _ _ _ _ _).
Qed.


Lemma truthy_raw (p : Params) :
  response_raw p = notnull (defined true) -> truthy (response_raw p) = true.
Proof. now intros ->. Qed.

Lemma truthy_not_raw (p : Params) :
  response_raw p <> notnull (defined true) -> truthy (response_raw p) = false.
Proof. destruct (response_raw p) as [|[|[|]]]; cbn; congruence. Qed.

Lemma is_string_response v :
  is_string "response" v = true -> v = Some (JStr "response").
Proof.
  destruct v as [[| | |s| |]|]; cbn; try discriminate.
  destruct (String.eqb_spec s "response"); [congruence|discriminate].
Qed.

Lemma emitted_nothing id p ds :
  (response_raw p = notnull (defined true) -> ds = []) ->
  (forall d props, In d ds -> JSON_parse (snd d) = Some (JObj props) ->
                   get "type" props <> Some (JStr "response")) ->
  flat_map (emitted JSON_parse id p) ds = [].
Proof.
  intros Hraw Hkind.
  destruct (truthy (response_raw p)) eqn:Et.
  - rewrite Hraw; [reflexivity|].
    destruct (response_raw p) as [|[|[|]]]; try discriminate. reflexivity.
  - clear Hraw. induction ds as [|d ds IH]; [reflexivity|]. cbn [flat_map].
    rewrite IH by (intros d0 props0 Hin; apply Hkind; now right).
    rewrite app_nil_r. unfold emitted. rewrite Et.
    destruct (JSON_parse (snd d)) as [v|] eqn:Ev; [|reflexivity].
    destruct v as [| | | | |props]; try reflexivity.
    cbn [prop]. destruct (is_string "response" (get "type" props)) eqn:Ek;
      [|reflexivity].
    apply is_string_response in Ek.
    now destruct (Hkind d props (or_introl eq_refl) Ev).
Qed.

(** C9: when the agent ends normally and no event was forwarded (none was
    emitted under [response_raw], and otherwise none was of kind
    "response"), the stop chunk itself starts the stream: status 200 and
    the event-stream headers leave, and the body is the one stop chunk,
    with empty content, followed by [data: [DONE]]. *)
Theorem C9_empty_stream_still_starts env body p ds t :
  serves env body p (map data' ds ++ [end_ t]) ->
  (response_raw p = notnull (defined true) -> ds = []) ->
  (forall d props, In d ds -> JSON_parse (snd d) = Some (JObj props) ->
                   get "type" props <> Some (JStr "response")) ->
  let r := res (final (post env body)) in
  head r =
    Some (200, [("Content-Type", "text/event-stream");
                ("Cache-Control", "no-cache");
                ("Connection", "keep-alive")])
  /\ sent r =
       [SseData {| Chunk.id := uuid_v4 env;
                   Chunk.object := "chat.completion.chunk";
                   Chunk.created := t / 1000;
                   Chunk.model := model p;
                   Chunk.choices :=
                     [ {| Chunk.delta_content := Some (JStr "");
                          Chunk.index := 0;
                          Chunk.finish_reason := notnull "stop" |} ] |};
        Literal ("data: [DONE]" ++ LF ++ LF)%string]
  /\ ended r = true.
Proof.
  intros [w0 H] Hraw Hkind. cbv zeta.
  destruct (setup_ready _ _ H) as [_ [fx ->]].
  rewrite (post_serves _ _ H). cbn [final].
  rewrite deliver_app. cbn [snd].
  rewrite deliver_data, (@emitted_nothing (uuid_v4 env) p ds Hraw Hkind).
  cbn [snd app deliver listener map].
  rewrite on_end_bridging. repeat split.
Qed.

(** C2: when the agent signals an error before any chunk was written
    ([started] is false), the response is the JSON error with status 500,
    type internal_server_error and a fixed message; when [started] is true
    the body written so far is closed as it is: no stop chunk, no
    [data: [DONE]], no error object. The error itself goes to the logger. *)
Theorem C2_agent_error_routing env body p ds err w0 :
  setup env body initial = (inr (Some (p, map data' ds ++ [error err])), w0) ->
  let mid := snd (deliver JSON_parse (uuid_v4 env) p (map data' ds) w0) in
  let o := post env body in
  (started mid = false ->
     sent (res mid) = [] /\ head (res mid) = None
     /\ res (final o) =
          failed 500 "internal_server_error"
            (Text "An error has occurred please try again later"))
  /\ (started mid = true ->
        sent (res mid) <> []
        /\ head (res (final o)) = Some (200, sse_headers)
        /\ sent (res (final o)) = sent (res mid)
        /\ ended (res (final o)) = true
        /\ filter is_stop (sent (res (final o))) = []
        /\ ~ In (Literal DONE) (sent (res (final o)))
        /\ forall e, ~ In (JsonError e) (sent (res (final o))))
  /\ In (LoggerError "openai stream error" err) (effects (final o))
  /\ rejected o = None.
Proof.
  intros H. cbv zeta.
  destruct (setup_ready _ _ H) as [_ [fx ->]].
  rewrite (post_serves _ _ H). cbn [final rejected].
  rewrite deliver_app. cbn [snd].
  rewrite deliver_data. cbn [snd app deliver listener].
  set (deltas := flat_map _ ds).
  assert (Hd : Forall (fun c => has_finish_reason c = false) deltas)
    by apply deltas_no_finish_reason.
  assert (Hs : filter is_stop (map SseData deltas) = [])
    by apply deltas_not_stop.
  destruct deltas as [|c deltas].
  - cbn [map]. rewrite on_error_fresh. cbn.
    repeat split; try discriminate.
    apply in_or_app. right. now left.
  - cbn [map] in *. rewrite on_error_streaming.
    cbn [snd res started closed sent head ended effects streaming].
    repeat split; try discriminate; try assumption.
    + intros [Hin|Hin]; [discriminate|].
      apply in_map_iff in Hin as [? [? _]]. discriminate.
    + intros e [Hin|Hin]; [discriminate|].
      apply in_map_iff in Hin as [? [? _]]. discriminate.
    + apply in_or_app. right. now left.
Qed.

Lemma sent_bridging fx xs : sent (res (bridging fx xs)) = xs.
Proof. now destruct xs. Qed.

(** C6, as the code has it: with [response_raw] every event is forwarded,
    one chunk each with the raw payload as content, and nothing is thrown.
    Without it, the chunks are, in order, one per event whose payload is
    the JSON text of an object with type "response", carrying that
    object's [data] field; every other payload writes nothing; it throws
    nothing either when it is a JSON text other than [null], a SyntaxError
    when it is no JSON text and a TypeError when it is [null]. *)
Theorem C6_forwarding env body p ds :
  serves env body p (map data' ds) ->
  let o := post env body in
  let delta := fun (now : Z) (content : option json) =>
    SseData {| Chunk.id := uuid_v4 env;
               Chunk.object := "chat.completion.chunk";
               Chunk.created := now / 1000;
               Chunk.model := model p;
               Chunk.choices :=
                 [ {| Chunk.delta_content := content;
                      Chunk.index := 0;
                      Chunk.finish_reason := null |} ] |} in
  (response_raw p = notnull (defined true) ->
   sent (res (final o)) = map (fun d => delta (fst d) (Some (JStr (snd d)))) ds
   /\ raised o = [])
  /\ (response_raw p <> notnull (defined true) ->
      sent (res (final o)) =
        flat_map
          (fun d =>
             match JSON_parse (snd d) with
             | Some (JObj props) =>
                 match get "type" props with
                 | Some (JStr kind) =>
                     if String.eqb kind "response"
                     then [delta (fst d) (get "data" props)]
                     else []
                 | _ => []
                 end
             | _ => []
             end) ds
      /\ raised o =
           flat_map
             (fun d =>
                match JSON_parse (snd d) with
                | None => [SyntaxError]
                | Some JNull => [TypeError]
                | Some _ => []
                end) ds).
Proof.
  intros [w0 H]. cbv zeta.
  destruct (setup_ready _ _ H) as [_ [fx ->]].
  rewrite (post_serves _ _ H). cbn [final raised].
  rewrite deliver_data. cbn [fst snd app]. rewrite sent_bridging.
  clear H. split; intros Hraw.
  - apply truthy_raw in Hraw.
    induction ds as [|d ds [IH1 IH2]]; [now split|].
    cbn [flat_map map]. rewrite map_app, IH1, IH2.
    unfold emitted, thrown, createDelta. rewrite Hraw. now split.
  - apply truthy_not_raw in Hraw.
    induction ds as [|d ds [IH1 IH2]]; [now split|].
    cbn [flat_map map]. rewrite map_app, IH1, IH2.
    unfold emitted, thrown, createDelta, is_string. rewrite Hraw.
    destruct (JSON_parse (snd d)) as [v|]; [|now split].
    destruct v as [| | | | |props]; try (now split).
    cbn [prop]. destruct (get "type" props) as [[| | |kind| |]|];
      try (now split).
    destruct (String.eqb kind "response"); now split.
Qed.

(** C10: without [response_raw], the data listener throws on a payload
    that [JSON.parse] rejects and writes nothing; if it returns, the
    payload was a JSON text. *)
Theorem C10_malformed_payload_throws id p now payload w :
  truthy (response_raw p) = false ->
  (JSON_parse payload = None ->
   on_data JSON_parse id p now payload w = (inl SyntaxError, w))
  /\ (forall w',
        on_data JSON_parse id p now payload w = (inr tt, w') ->
        exists v, JSON_parse payload = Some v).
Proof.
  intros Hraw. unfold on_data. rewrite Hraw. split.
  - intros ->. reflexivity.
  - intros w'. destruct (JSON_parse payload) as [v|]; [eauto|discriminate].
Qed.

(** The payload [null] is a JSON text and the listener throws on it too:
    the property read [parsedData.type] fails. *)
Lemma on_data_null id p now payload w :
  truthy (response_raw p) = false ->
  JSON_parse payload = Some JNull ->
  on_data JSON_parse id p now payload w = (inl TypeError, w).
Proof. intros Hraw Hp. unfold on_data. now rewrite Hraw, Hp. Qed.

End Stream.

(** ** Every write goes through the listeners *)

Section Writes.

Variable P : Written -> Prop.

Lemma appends_nothing {A : Type} (c : M A) :
  (forall w, sent (res (snd (c w))) = sent (res w)) -> appends P c.
Proof.
  intros H w. exists []. rewrite H, app_nil_r. now split.
Qed.

Lemma appends_bind {A B : Type} (c : M A) (k : A -> M B) :
  appends P c -> (forall a, appends P (k a)) -> appends P (bind c k).
Proof.
  intros Hc Hk w. unfold bind.
  destruct (Hc w) as [xs [E1 F1]].
  destruct (c w) as [[e|a] w1]; cbn [snd] in *.
  - now exists xs.
  - destruct (Hk a w1) as [ys [E2 F2]].
    exists (xs ++ ys). rewrite E2, E1, app_assoc. split; [reflexivity|].
    apply Forall_app. now split.
Qed.

Lemma appends_ret {A : Type} (a : A) : appends P (ret a).
Proof. now apply appends_nothing. Qed.

Lemma appends_throw {A : Type} (e : exn) : appends P (@throw A e).
Proof. now apply appends_nothing. Qed.

Lemma appends_gets {A : Type} (f : world -> A) : appends P (gets f).
Proof. now apply appends_nothing. Qed.

Lemma appends_set_started b : appends P (set_started b).
Proof. now apply appends_nothing. Qed.

Lemma appends_perform e : appends P (perform e).
Proof. now apply appends_nothing. Qed.

Lemma appends_res_status code : appends P (res_status code).
Proof. now apply appends_nothing. Qed.

Lemma appends_res_end : appends P res_end.
Proof. now apply appends_nothing. Qed.

Lemma appends_res_setHeader name value : appends P (res_setHeader name value).
Proof.
  apply appends_nothing. intros w. unfold res_setHeader, bind, gets.
  now destruct (head (res w)).
Qed.

Lemma appends_res_write x : P x -> appends P (res_write x).
Proof.
  intros Hx w. unfold res_write, on_res, modify. cbn.
  destruct (ended (res w)); cbn.
  - exists []. rewrite app_nil_r. now split.
  - exists [x]. split; [reflexivity|]. now constructor.
Qed.

Lemma appends_if {A : Type} (b : bool) (c d : M A) :
  appends P c -> appends P d -> appends P (if b then c else d).
Proof. now destruct b. Qed.

End Writes.

Create HintDb appends.

#[local] Hint Resolve appends_bind appends_ret appends_throw appends_gets
  appends_set_started appends_perform appends_res_status appends_res_end
  appends_res_setHeader appends_res_write appends_if : appends.

Section Shape.

Variable JSON_parse : string -> option json.
Variable id : string.
Variable p : Params.

Lemma appends_res_json P e : P (JsonError e) -> appends P (res_json e).
Proof.
  intros He. unfold res_json.
  apply appends_bind; [auto with appends|]. intros ct.
  apply appends_bind; [destruct ct; auto with appends|]. intros _.
  apply appends_bind; [auto with appends|]. intros [h|]; auto with appends.
Qed.

Lemma appends_throwError P code type message :
  P (JsonError {| error_type := type; error_message := message;
                  error_code := code |}) ->
  appends P (throwError code type message).
Proof.
  intros H. unfold throwError.
  apply appends_bind; [auto with appends|]. intros _.
  now apply appends_res_json.
Qed.

Lemma appends_startStreamIfNeed P : appends P startStreamIfNeed.
Proof.
  unfold startStreamIfNeed.
  apply appends_bind; [auto with appends|]. intros s.
  apply appends_if; auto 10 with appends.
Qed.

Lemma appends_writeDelta P now c fr :
  P (SseData (createDelta id p now c fr)) ->
  appends P (writeDelta id p now c fr).
Proof.
  intros H. unfold writeDelta.
  apply appends_bind; [apply appends_startStreamIfNeed|]. intros _.
  now apply appends_res_write.
Qed.

Lemma appends_listener ev :
  appends (written_by JSON_parse id p ev) (listener JSON_parse id p ev).
Proof.
  destruct ev as [now payload|now|err]; cbn [listener].
  - unfold on_data.
    destruct (truthy (response_raw p)) eqn:Hraw.
    + apply appends_writeDelta. cbn. rewrite Hraw. eauto.
    + destruct (JSON_parse payload) as [v|] eqn:Hv; [|auto with appends].
      assert (H : appends (written_by JSON_parse id p (data now payload))
                    (if is_string "response" (prop "type" v)
                     then writeDelta id p now (prop "data" v) null
                     else ret tt)).
      { destruct (is_string _ _) eqn:Hk; [|auto with appends].
        apply appends_writeDelta. cbn. rewrite Hraw.
        eexists. split; [reflexivity|]. eauto. }
      destruct v; auto with appends.
  - unfold on_end.
    apply appends_bind; [now apply appends_writeDelta|]. intros _.
    apply appends_bind; [now apply appends_res_write|]. intros _.
    auto with appends.
  - unfold on_error.
    apply appends_bind; [auto with appends|]. intros _.
    apply appends_bind; [auto with appends|]. intros s.
    apply appends_if; [auto with appends|].
    now apply appends_throwError.
Qed.

Lemma deliver_appends evs : forall w,
  exists xs,
    sent (res (snd (deliver JSON_parse id p evs w))) = sent (res w) ++ xs
    /\ Forall (fun x => exists ev, In ev evs
                                   /\ written_by JSON_parse id p ev x) xs.
Proof.
  induction evs as [|ev evs IH]; intros w; cbn [deliver].
  - exists []. rewrite app_nil_r. now split.
  - destruct (appends_listener ev w) as [xs [E1 F1]].
    destruct (listener JSON_parse id p ev w) as [r w1]. cbn [snd] in E1.
    destruct (IH w1) as [ys [E2 F2]].
    exists (xs ++ ys). split.
    + destruct r as [e|[]]; [destruct (deliver _ _ _ evs w1)|];
        cbn [snd] in *; now rewrite E2, E1, app_assoc.
    + apply Forall_app. split.
      * eapply Forall_impl; [|exact F1]. intros x Hx. exists ev. split; [now left|assumption].
      * eapply Forall_impl; [|exact F2]. intros x [ev' [Hin Hx]].
        exists ev'. split; [now right|assumption].
Qed.

End Shape.


(** ** The request validator *)

Section Validator.

Lemma requestParamsSchema_fields o p :
  requestParamsSchema (JObj o) = inr p ->
  messages_schema (get "messages" o) = Some (messages p)
  /\ model_schema (get "model" o) = Some (model p)
  /\ temperature_schema (get "temperature" o) = Some (temperature p)
  /\ number_field (get "frequency_penalty" o) = Some (frequency_penalty p)
  /\ number_field (get "max_tokens" o) = Some (max_tokens p)
  /\ number_field (get "presence_penalty" o) = Some (presence_penalty p)
  /\ number_field (get "top_p" o) = Some (top_p p)
  /\ stop_schema (get "stop" o) = Some (stop p)
  /\ response_raw_schema (get "response_raw" o) = Some (response_raw p).
Proof.
  unfold requestParamsSchema.
  destruct (messages_schema _), (model_schema _), (stream_schema _),
    (temperature_schema _), (number_field (get "frequency_penalty" o)),
    (number_field (get "max_tokens" o)),
    (number_field (get "presence_penalty" o)),
    (number_field (get "top_p" o)), (stop_schema _),
    (response_raw_schema _); try discriminate.
  intros H. injection H as <-. cbn. repeat split.
Qed.

Lemma validate_schema body p :
  validate body = inr p ->
  requestParamsSchema body = inr p /\ last_message_invalid (messages p) = false.
Proof.
  unfold validate. destruct (requestParamsSchema body) as [e|p']; [discriminate|].
  destruct (last_message_invalid (messages p')) eqn:E; [discriminate|].
  intros H. injection H as <-. now split.
Qed.

Lemma validate_body_object body p :
  validate body = inr p -> exists o, body = JObj o.
Proof.
  intros H. apply validate_schema in H as [H _].
  destruct body; try discriminate. eauto.
Qed.

(** The parsed list follows the input array position by position. *)
Lemma all_nth {A : Type} (s : schema A) items : forall l,
  all s items = Some l ->
  length l = length items
  /\ forall i x, nth_error items i = Some x ->
                 exists a, s (Some x) = Some a /\ nth_error l i = Some a.
Proof.
  induction items as [|y items IH]; intros l; cbn.
  - intros H. injection H as <-. split; [reflexivity|].
    intros [|i] x; discriminate.
  - destruct (s (Some y)) as [a|] eqn:Ey; [|discriminate].
    destruct (all s items) as [l'|]; [|discriminate].
    intros H. injection H as <-.
    destruct (IH l' eq_refl) as [Hlen Hnth]. split; [cbn; now rewrite Hlen|].
    intros [|i] x; cbn.
    + intros H. injection H as <-. eauto.
    + apply Hnth.
Qed.


Lemma messages_schema_array items l :
  messages_schema (Some (JArr items)) = Some l ->
  all message_schema items = Some l /\ l <> [].
Proof.
  unfold messages_schema, nonempty, array.
  destruct (all message_schema items) as [[|a l']|]; try discriminate.
  intros H. injection H as <-. split; [reflexivity|discriminate].
Qed.

Lemma role_schema_user v :
  role_schema v = Some user -> v = Some (JStr "user").
Proof.
  unfold role_schema, enum. destruct v as [[]|]; try discriminate.
  cbn. destruct (String.eqb_spec s "user") as [->|]; [reflexivity|].
  destruct (s =? "assistant")%string; [discriminate|].
  destruct (s =? "system")%string; discriminate.
Qed.


(** A parsed last message that came from an input message with another
    role or with empty content fails the check of the route. *)
Lemma last_message_invalid_input m a l :
  message_schema (Some m) = Some a ->
  last_message l = Some a ->
  prop "role" m <> Some (JStr "user") \/ prop "content" m = Some (JStr "") ->
  last_message_invalid l = true.
Proof.
  intros Hm Hl Hbad. unfold last_message_invalid.
  destruct l as [|a0 l0]; [reflexivity|]. rewrite Hl.
  unfold message_schema in Hm. destruct m as [| | | | |o]; try discriminate.
  destruct (role_schema (get "role" o)) as [r|] eqn:Er; [|discriminate].
  destruct (string_ (get "content" o)) as [c|] eqn:Ec; [|discriminate].
  injection Hm as <-. cbn [role content prop] in *.
  destruct Hbad as [Hrole|Hcontent].
  - destruct r; try reflexivity.
    apply role_schema_user in Er. contradiction.
  - rewrite Hcontent in Ec. cbn in Ec. injection Ec as <-.
    apply orb_true_r.
Qed.

Lemma validate_rejects_last o items :
  get "messages" o = Some (JArr items) ->
  Spec.last_not_user_text items ->
  exists m, validate (JObj o) = inl m.
Proof.
  intros Hget Hbad. unfold validate.
  destruct (requestParamsSchema (JObj o)) as [e|p] eqn:Ep; [eauto|].
  apply requestParamsSchema_fields in Ep as [Hms _]. rewrite Hget in Hms.
  apply messages_schema_array in Hms as [Hall Hne].
  destruct (all_nth _ _ Hall) as [Hlen Hnth].
  destruct Hbad as [->|[m [Hm Hbad]]].
  - cbn in Hall. injection Hall as Hnil. congruence.
  - destruct (Hnth _ _ Hm) as [a [Ha Hl]]. rewrite <- Hlen in Hl.
    rewrite (@last_message_invalid_input m a _ Ha Hl Hbad). eauto.
Qed.


End Validator.

(** ** The shape of the chunks *)

Section ChunkShape.

Variables ChatModel Embeddings : Type.
Variable JSON_parse : string -> option json.
Implicit Types env : Env ChatModel Embeddings.

Lemma model_of_body o p :
  validate (JObj o) = inr p ->
  model p = match get "model" o with
            | Some JNull => null
            | _ => notnull perplexica
            end.
Proof.
  intros H. apply validate_schema in H as [H _].
  apply requestParamsSchema_fields in H as (_ & D & _).
  unfold model_schema, default, nullable_, enum in D.
  destruct (get "model" o) as [[| | |s| |]|]; cbn in D; try discriminate;
    try (injection D as <-; reflexivity).
  destruct (String.eqb s "perplexica"); cbn in D; [|discriminate].
  now injection D as <-.
Qed.

(** C7, as the code has it: every chunk of a request carries the id drawn
    for the request, the object "chat.completion.chunk", the whole seconds
    of the clock at its creation, the model of the request (perplexica, or
    null when the request gave [model: null]), and one choice with index 0.
    The finish_reason is null and the content is the raw payload (under
    [response_raw]) or the [data] field of a response event as it was
    parsed, text or not, present or not; except on the stop chunk, whose
    finish_reason is "stop" and whose content is the empty string. The
    events may come in any order and number. *)
Theorem C7_chunk_shape env o p evs c :
  serves env (JObj o) p evs ->
  In (SseData c)
     (sent (res (final (post_chat_completions JSON_parse env (JObj o))))) ->
  exists ev now content fr,
    In ev evs /\ event_time ev = Some now
    /\ c = {| Chunk.id := uuid_v4 env;
              Chunk.object := "chat.completion.chunk";
              Chunk.created := now / 1000;
              Chunk.model := match get "model" o with
                             | Some JNull => null
                             | _ => notnull perplexica
                             end;
              Chunk.choices :=
                [ {| Chunk.delta_content := content;
                     Chunk.index := 0;
                     Chunk.finish_reason := fr |} ] |}
    /\ 1000 * (now / 1000) <= now < 1000 * (now / 1000) + 1000
    /\ ((exists payload,
           ev = data now payload /\ fr = null
           /\ ((response_raw p = notnull (defined true)
                /\ content = Some (JStr payload))
               \/ (response_raw p <> notnull (defined true)
                   /\ exists props,
                        JSON_parse payload = Some (JObj props)
                        /\ get "type" props = Some (JStr "response")
                        /\ content = get "data" props)))
        \/ (ev = end_ now /\ fr = notnull "stop"
            /\ content = Some (JStr ""))).
Proof.
  intros [w0 H] Hin.
  destruct (setup_ready _ _ H) as [Hv [fx ->]].
  rewrite <- (model_of_body _ Hv).
  rewrite (post_serves JSON_parse _ _ H) in Hin. cbn [final] in Hin.
  destruct (deliver_appends JSON_parse (uuid_v4 env) p evs (bridging fx []))
    as [xs [E F]].
  rewrite E in Hin. cbn [bridging res fresh_response sent app] in Hin.
  rewrite Forall_forall in F.
  destruct (F _ Hin) as [ev [Hev Hw]].
  assert (Hsec : forall now,
             1000 * (now / 1000) <= now < 1000 * (now / 1000) + 1000).
  { intros now. pose proof (Z.div_mod now 1000).
    pose proof (Z.mod_pos_bound now 1000). lia. }
  destruct ev as [now payload|now|err]; cbn in Hw; [| |contradiction].
  - destruct Hw as [content [-> Hc]].
    exists (data now payload), now, content, null.
    split; [assumption|]. split; [reflexivity|]. split; [reflexivity|].
    split; [apply Hsec|]. left. exists payload.
    split; [reflexivity|]. split; [reflexivity|].
    destruct (truthy (response_raw p)) eqn:Et.
    + left. split; [|assumption].
      destruct (response_raw p) as [|[|[|]]]; try discriminate. reflexivity.
    + right. split; [intros Hr; rewrite Hr in Et; discriminate|].
      destruct Hc as [v [Hv' [Hk ->]]].
      destruct v as [| | | | |props]; try discriminate.
      exists props. split; [assumption|]. split; [|reflexivity].
      now apply is_string_response.
  - subst c. exists (end_ now), now, (Some (JStr "")), (notnull "stop").
    split; [assumption|]. split; [reflexivity|]. split; [reflexivity|].
    split; [apply Hsec|]. right. repeat split.
Qed.

End ChunkShape.

(** ** Responses before the stream *)

Section Rejections.

Variables ChatModel Embeddings : Type.
Variable JSON_parse : string -> option json.
Implicit Types env : Env ChatModel Embeddings.

Local Abbreviation post := (post_chat_completions JSON_parse).

Lemma post_invalid env body m :
  validate body = inl m ->
  post env body =
  {| rejected := None; raised := [];
     final := {| res := failed 400 "invalid_request_error" m;
                 started := false; effects := [] |} |}.
Proof.
  intros H. unfold post_chat_completions. now rewrite (setup_invalid env _ H).
Qed.

(** C4: a request whose [messages] array is empty, or whose last message
    is not from the user or has empty content, gets the JSON error with
    status 400 and type invalid_request_error; the head that leaves is the
    JSON one, no chunk is written and nothing else happens. *)
Theorem C4_last_message_must_be_user env o items :
  get "messages" o = Some (JArr items) ->
  Spec.last_not_user_text items ->
  let out := post env (JObj o) in
  exists message,
    res (final out) = failed 400 "invalid_request_error" message
    /\ head (res (final out)) =
         Some (400, [("Content-Type", "application/json; charset=utf-8")])
    /\ sent (res (final out)) =
         [JsonError {| error_type := "invalid_request_error";
                       error_message := message; error_code := 400 |}]
    /\ started (final out) = false
    /\ effects (final out) = []
    /\ rejected out = None.
Proof.
  intros Hget Hbad. cbv zeta.
  destruct (validate_rejects_last o Hget Hbad) as [m Hm].
  rewrite (post_invalid env _ Hm). exists m. repeat split.
Qed.


(** C3, where the code departs from it: with an empty chat or embedding
    catalog the route reads the keys of [undefined]; the callback's promise
    is rejected with a TypeError and [res] is left untouched. *)
Theorem C3_empty_catalog_rejects env body p :
  validate body = inr p ->
  chatModelProviders env = [] \/ embeddingModelProviders env = [] ->
  let out := post env body in
  rejected out = Some TypeError
  /\ res (final out) = fresh_response
  /\ head (res (final out)) = None.
Proof.
  intros Hv Hempty. cbv zeta. unfold post_chat_completions, setup.
  rewrite Hv.
  destruct Hempty as [E|E]; rewrite E.
  - cbn. repeat split.
  - destruct (chatModelProviders env) as [|[cp ms] ?]; cbn;
      unfold at_key; cbn; rewrite ?String.eqb_refl; cbn; repeat split.
Qed.

(** The part of C3 the code does keep: a first provider without models
    gets the JSON error with status 500. *)
Lemma empty_model_map_500 env body p cp rest :
  validate body = inr p ->
  chatModelProviders env = (cp, []) :: rest ->
  embeddingModelProviders env <> [] ->
  let out := post env body in
  res (final out) =
    failed 500 "internal_server_error" (Text "Model or Embedding not found")
  /\ started (final out) = false
  /\ rejected out = None.
Proof.
  intros Hv Hc He. cbv zeta. unfold post_chat_completions, setup.
  rewrite Hv, Hc.
  destruct (embeddingModelProviders env) as [|[ep ms] ?]; [contradiction|].
  cbn. unfold pick, at_key. cbn. rewrite !String.eqb_refl. cbn.
  repeat split.
Qed.

End Rejections.

(** ** The [stream] flag *)

Section StreamFlag.

Variables ChatModel Embeddings : Type.
Variable JSON_parse : string -> option json.
Implicit Types env : Env ChatModel Embeddings.

Lemma listener_ext id p1 p2 ev w :
  model p1 = model p2 -> response_raw p1 = response_raw p2 ->
  listener JSON_parse id p1 ev w = listener JSON_parse id p2 ev w.
Proof.
  intros Hm Hr.
  destruct ev; cbn [listener];
    unfold on_data, on_end, writeDelta, createDelta;
    rewrite ?Hm, ?Hr; reflexivity.
Qed.

Lemma deliver_ext id p1 p2 evs :
  model p1 = model p2 -> response_raw p1 = response_raw p2 ->
  forall w, deliver JSON_parse id p1 evs w = deliver JSON_parse id p2 evs w.
Proof.
  intros Hm Hr. induction evs as [|ev evs IH]; intros w; cbn [deliver].
  - reflexivity.
  - rewrite (listener_ext id p1 p2 ev w Hm Hr).
    destruct (listener JSON_parse id p2 ev w) as [[e|[]] w1]; now rewrite IH.
Qed.

(** Two accepted bodies that agree on every key but [stream] give
    parameters that agree on every field but [stream]. *)
Lemma validate_but_stream o1 o2 p1 p2 :
  (forall k, k <> "stream" -> get k o1 = get k o2) ->
  validate (JObj o1) = inr p1 ->
  validate (JObj o2) = inr p2 ->
  messages p1 = messages p2 /\ model p1 = model p2
  /\ response_raw p1 = response_raw p2.
Proof.
  intros Hsame H1 H2.
  apply validate_schema in H1 as [H1 _]. apply validate_schema in H2 as [H2 _].
  apply requestParamsSchema_fields in H1
    as (M1 & D1 & _ & _ & _ & _ & _ & _ & R1).
  apply requestParamsSchema_fields in H2
    as (M2 & D2 & _ & _ & _ & _ & _ & _ & R2).
  rewrite (Hsame "messages") in M1 by discriminate.
  rewrite (Hsame "model") in D1 by discriminate.
  rewrite (Hsame "response_raw") in R1 by discriminate.
  repeat split; congruence.
Qed.

(** C8: two accepted requests that differ at most in [stream] get the same
    response: same head, same body, same end, same errors, whatever the
    providers and the agent do. *)
Theorem C8_stream_flag_ignored env o1 o2 p1 p2 :
  (forall k, k <> "stream" -> get k o1 = get k o2) ->
  validate (JObj o1) = inr p1 ->
  validate (JObj o2) = inr p2 ->
  post_chat_completions JSON_parse env (JObj o1) =
  post_chat_completions JSON_parse env (JObj o2).
Proof.
  intros Hsame H1 H2.
  destruct (validate_but_stream o1 o2 Hsame H1 H2) as (Hm & Hd & Hr).
  unfold post_chat_completions, setup. rewrite H1, H2, Hm.
  destruct (chatModelProviders env) as [|[cp [|[cm llm] ?]] ?];
    destruct (embeddingModelProviders env) as [|[ep [|[em emb] ?]] ?];
    cbn; unfold pick, at_key; cbn; repeat (rewrite String.eqb_refl; cbn);
    try reflexivity.
  destruct (last_message (messages p2)) as [message|]; cbn; [|reflexivity].
  now rewrite (deliver_ext (uuid_v4 env) p1 p2 _ Hd Hr).
Qed.

End StreamFlag.

(** * Runs *)

Section Runs.

Import Examples.

Local Abbreviation post := (post_chat_completions Reference.JSON_parse).

Lemma serves_rust evs : serves (env evs) rust rust_params evs.
Proof. eexists. vm_compute. reflexivity. Defined.

(** The example of the specification: one response event and the end give
    one content chunk, the stop chunk and the terminal line. *)
Example rust_ownership :
  sent (res (final (post (env [data t2 response_event; end_ t3]) rust))) =
  [ SseData {| Chunk.id := "b5a1c2d3";
               Chunk.object := "chat.completion.chunk";
               Chunk.created := 1730570001;
               Chunk.model := notnull perplexica;
               Chunk.choices :=
                 [ {| Chunk.delta_content := Some (JStr "Rust ownership is...");
                      Chunk.index := 0;
                      Chunk.finish_reason := null |} ] |};
    SseData {| Chunk.id := "b5a1c2d3";
               Chunk.object := "chat.completion.chunk";
               Chunk.created := 1730570002;
               Chunk.model := notnull perplexica;
               Chunk.choices :=
                 [ {| Chunk.delta_content := Some (JStr "");
                      Chunk.index := 0;
                      Chunk.finish_reason := notnull "stop" |} ] |};
    Literal DONE ].
Proof. vm_compute. reflexivity. Qed.

(** An agent that fails at once: the JSON error, and the cause only in the
    log. *)
Example fails_before_start :
  res (final (post (env [error "ECONNREFUSED"]) rust)) =
  failed 500 "internal_server_error"
    (Text "An error has occurred please try again later").
Proof. vm_compute. reflexivity. Qed.


Lemma C9_witness :
  let r := res (final (post (env (map data' progress ++ [end_ t3])) rust)) in
  head r =
    Some (200, [("Content-Type", "text/event-stream");
                ("Cache-Control", "no-cache");
                ("Connection", "keep-alive")])
  /\ sent r =
       [SseData {| Chunk.id := "b5a1c2d3";
                   Chunk.object := "chat.completion.chunk";
                   Chunk.created := 1730570002;
                   Chunk.model := notnull perplexica;
                   Chunk.choices :=
                     [ {| Chunk.delta_content := Some (JStr "");
                          Chunk.index := 0;
                          Chunk.finish_reason := notnull "stop" |} ] |};
        Literal ("data: [DONE]" ++ LF ++ LF)%string]
  /\ ended r = true.
Proof.
  refine (@C9_empty_stream_still_starts unit unit Reference.JSON_parse
            (env (map data' progress ++ [end_ t3])) rust rust_params
            progress t3 (serves_rust _) _ _).
  - discriminate.
  - intros d props [<-|[]] Hp. vm_compute in Hp. injection Hp as <-.
    discriminate.
Defined.

Lemma C2_witness :
  let o := post (env (map data' answer ++ [error "ECONNRESET"])) rust in
  head (res (final o)) = Some (200, sse_headers)
  /\ ended (res (final o)) = true
  /\ ~ In (Literal DONE) (sent (res (final o))).
Proof.
  cbv zeta.
  assert (H : setup (env (map data' answer ++ [error "ECONNRESET"])) rust
                initial =
              (inr (Some (rust_params,
                          map data' answer ++ [error "ECONNRESET"])),
               bridging
                 [GetAvailableChatModelProviders;
                  GetAvailableEmbeddingModelProviders;
                  LoggerInfo
                    "searching(GPT-4 omni - Text embedding 3 small): What is Rust ownership?"]
                 [])).
  { vm_compute. reflexivity. }
  destruct (@C2_agent_error_routing unit unit Reference.JSON_parse _ _ _
              answer "ECONNRESET" _ H) as (_ & Hstarted & _).
  destruct Hstarted as (_ & Hhead & _ & Hended & _ & Hdone & _).
  - vm_compute. reflexivity.
  - exact (conj Hhead (conj Hended Hdone)).
Defined.

(** With [response_raw] every payload goes out as it came, JSON or not. *)
Example raw_payloads_verbatim :
  map (fun x => match x with
                | SseData c => map Chunk.delta_content (Chunk.choices c)
                | _ => []
                end)
      (sent (res (final (post (env [data t1 sources_event; data t2 "not json"])
                              rust_raw)))) =
  [ [Some (JStr sources_event)]; [Some (JStr "not json")] ].
Proof. vm_compute. reflexivity. Qed.

Lemma C6_witness :
  let o := post (env (map data' answer)) rust in
  sent (res (final o)) =
    [SseData {| Chunk.id := "b5a1c2d3";
                Chunk.object := "chat.completion.chunk";
                Chunk.created := 1730570001;
                Chunk.model := notnull perplexica;
                Chunk.choices :=
                  [ {| Chunk.delta_content := Some (JStr "Rust ownership is...");
                       Chunk.index := 0;
                       Chunk.finish_reason := null |} ] |}]
  /\ raised o = [].
Proof.
  refine (proj2 (@C6_forwarding unit unit Reference.JSON_parse
                   (env (map data' answer)) rust rust_params answer
                   (serves_rust _)) _).
  discriminate.
Defined.

(** C6 as the specification states it fails: without [response_raw], the
    event whose payload is the JSON text [null] is no response event, and
    it does not go by silently: the listener throws a TypeError. *)
Lemma C6_counterexample :
  let o := post (env [data t1 "null"]) rust in
  response_raw rust_params = notnull (defined false)
  /\ Reference.JSON_parse "null" = Some JNull
  /\ sent (res (final o)) = []
  /\ raised o = [TypeError].
Proof. vm_compute. repeat split. Qed.

Lemma C10_witness :
  on_data Reference.JSON_parse "b5a1c2d3" rust_params t1 "not json" initial =
  (inl SyntaxError, initial).
Proof.
  exact (proj1 (C10_malformed_payload_throws Reference.JSON_parse "b5a1c2d3"
                  rust_params t1 "not json" initial eq_refl) eq_refl).
Defined.

Lemma C3_witness :
  let out := post no_embeddings rust in
  rejected out = Some TypeError
  /\ res (final out) = fresh_response
  /\ head (res (final out)) = None.
Proof.
  exact (@C3_empty_catalog_rejects unit unit Reference.JSON_parse
           no_embeddings rust rust_params eq_refl (or_intror eq_refl)).
Defined.

Lemma C4_witness :
  exists message,
    res (final (post (env []) (JObj assistant_last))) =
    failed 400 "invalid_request_error" message.
Proof.
  destruct (@C4_last_message_must_be_user unit unit Reference.JSON_parse
              (env []) assistant_last
              [message "user" "hi"; message "assistant" "hello"] eq_refl)
    as [m [Hm _]].
  - right. exists (message "assistant" "hello"). split; [reflexivity|].
    left. discriminate.
  - exists m. exact Hm.
Defined.



Lemma C7_witness :
  exists now content fr,
    createDelta "b5a1c2d3" rust_params t2
      (Some (JStr "Rust ownership is...")) null =
    {| Chunk.id := "b5a1c2d3";
       Chunk.object := "chat.completion.chunk";
       Chunk.created := now / 1000;
       Chunk.model := notnull perplexica;
       Chunk.choices :=
         [ {| Chunk.delta_content := content;
              Chunk.index := 0;
              Chunk.finish_reason := fr |} ] |}.
Proof.
  destruct (@C7_chunk_shape unit unit Reference.JSON_parse
              (env (map data' answer ++ [end_ t3])) unstreamed rust_params
              (map data' answer ++ [end_ t3])
              (createDelta "b5a1c2d3" rust_params t2
                 (Some (JStr "Rust ownership is...")) null))
    as (ev & now & content & fr & _ & _ & Hc & _).
  - eexists. vm_compute. reflexivity.
  - vm_compute. left. reflexivity.
  - exists now, content, fr. exact Hc.
Defined.

(** C7 as the specification states it fails on two counts: a response
    event whose [data] is the number 5 gives a chunk whose delta content is
    that number, not a string; and a request with [model: null] gives
    chunks whose model is null, not a model name. *)
Lemma C7_counterexample :
  sent (res (final (post (env [data t2 Cases.number_event]) rust))) =
    [SseData {| Chunk.id := "b5a1c2d3";
                Chunk.object := "chat.completion.chunk";
                Chunk.created := 1730570001;
                Chunk.model := notnull perplexica;
                Chunk.choices :=
                  [ {| Chunk.delta_content := Some (JNum 5);
                       Chunk.index := 0;
                       Chunk.finish_reason := null |} ] |}]
  /\ sent (res (final (post (env [end_ t3]) (JObj Cases.null_model)))) =
       [SseData {| Chunk.id := "b5a1c2d3";
                   Chunk.object := "chat.completion.chunk";
                   Chunk.created := 1730570002;
                   Chunk.model := null;
                   Chunk.choices :=
                     [ {| Chunk.delta_content := Some (JStr "");
                          Chunk.index := 0;
                          Chunk.finish_reason := notnull "stop" |} ] |};
        Literal DONE].
Proof. vm_compute. split; reflexivity. Qed.

Lemma C8_witness :
  post (env (map data' answer ++ [end_ t3])) (JObj streamed) =
  post (env (map data' answer ++ [end_ t3])) (JObj unstreamed).
Proof.
  eapply (@C8_stream_flag_ignored unit unit Reference.JSON_parse
            (env (map data' answer ++ [end_ t3])) streamed unstreamed).
  - intros k Hk. apply String.eqb_neq in Hk. cbn.
    destruct (k =? "messages")%string; [reflexivity|]. now rewrite Hk.
  - vm_compute. reflexivity.
  - vm_compute. reflexivity.
Defined.

End Runs.

(** * Further properties of the route *)

(** ** Invariants of the listeners *)

Section Keeps.

Variable I : world -> Prop.

Lemma keeps_bind {A B : Type} (c : M A) (k : A -> M B) :
  keeps I c -> (forall a, keeps I (k a)) -> keeps I (bind c k).
Proof.
  intros Hc Hk w Hw. unfold bind. specialize (Hc w Hw).
  destruct (c w) as [[e|a] w1]; cbn [snd] in *; [assumption|].
  now apply Hk.
Qed.

Lemma keeps_ret {A : Type} (a : A) : keeps I (ret a).
Proof. now intros w. Qed.

Lemma keeps_throw {A : Type} (e : exn) : keeps I (@throw A e).
Proof. now intros w. Qed.

Lemma keeps_gets {A : Type} (f : world -> A) : keeps I (gets f).
Proof. now intros w. Qed.

Lemma keeps_if {A : Type} (b : bool) (c d : M A) :
  keeps I c -> keeps I d -> keeps I (if b then c else d).
Proof. now destruct b. Qed.

(** What is left to show for a given [I]: the writes to the world. *)
Hypothesis K_started : forall b, keeps I (set_started b).
Hypothesis K_status : forall code, keeps I (res_status code).
Hypothesis K_header : forall name value, keeps I (res_setHeader name value).
Hypothesis K_write : forall x, keeps I (res_write x).
Hypothesis K_end : keeps I res_end.

Lemma keeps_startStreamIfNeed : keeps I startStreamIfNeed.
Proof.
  unfold startStreamIfNeed.
  apply keeps_bind; [apply keeps_gets|]. intros s.
  apply keeps_if; [|apply keeps_ret].
  repeat (apply keeps_bind; [auto|intros _]). auto.
Qed.

Lemma keeps_writeDelta id p now c fr : keeps I (writeDelta id p now c fr).
Proof.
  unfold writeDelta.
  apply keeps_bind; [apply keeps_startStreamIfNeed|]. intros _. auto.
Qed.

Lemma keeps_on_data JSON_parse id p now payload :
  keeps I (on_data JSON_parse id p now payload).
Proof.
  unfold on_data. apply keeps_if; [apply keeps_writeDelta|].
  destruct (JSON_parse payload) as [v|]; [|apply keeps_throw].
  destruct v; try apply keeps_throw;
    (apply keeps_if; [apply keeps_writeDelta|apply keeps_ret]).
Qed.

Lemma keeps_on_end id p now : keeps I (on_end id p now).
Proof.
  unfold on_end.
  apply keeps_bind; [apply keeps_writeDelta|]. intros _.
  apply keeps_bind; [auto|]. intros _. auto.
Qed.

Lemma keeps_res_json e : keeps I (res_json e).
Proof.
  unfold res_json.
  apply keeps_bind; [apply keeps_gets|]. intros ct.
  apply keeps_bind; [destruct ct; [apply keeps_ret|auto]|]. intros _.
  apply keeps_bind; [apply keeps_gets|]. intros [h|]; [apply keeps_throw|].
  apply keeps_bind; [auto|]. intros _. auto.
Qed.

Lemma keeps_throwError code type message :
  keeps I (throwError code type message).
Proof.
  unfold throwError. apply keeps_bind; [auto|]. intros _.
  apply keeps_res_json.
Qed.

(** The part of [on_error] after the call to the logger. *)
Lemma keeps_on_error_reply :
  keeps I
    (s <- gets started ;;
     if s then res_end
     else throwError 500 "internal_server_error"
            (Text "An error has occurred please try again later")).
Proof.
  apply keeps_bind; [apply keeps_gets|]. intros s.
  apply keeps_if; [auto|apply keeps_throwError].
Qed.

Hypothesis K_perform : forall e, keeps I (perform e).

Lemma keeps_listener JSON_parse id p ev :
  keeps I (listener JSON_parse id p ev).
Proof.
  destruct ev; cbn [listener].
  - apply keeps_on_data.
  - apply keeps_on_end.
  - unfold on_error. apply keeps_bind; [auto|]. intros _.
    apply keeps_on_error_reply.
Qed.

Lemma keeps_deliver JSON_parse id p evs : forall w,
  I w -> I (snd (deliver JSON_parse id p evs w)).
Proof.
  induction evs as [|ev evs IH]; intros w Hw; cbn [deliver]; [assumption|].
  pose proof (keeps_listener JSON_parse id p ev Hw) as H1.
  destruct (listener JSON_parse id p ev w) as [[e|[]] w1]; cbn [snd] in H1.
  - specialize (IH w1 H1). now destruct (deliver JSON_parse id p evs w1).
  - now apply IH.
Qed.

End Keeps.

Section Finality.

Variable JSON_parse : string -> option json.
Variable id : string.
Variable p : Params.

Ltac primitive :=
  unfold keeps; intros;
  match goal with
  | |- context [snd (_ ?w0)] => destruct w0 as [[? ? [?|] ? [|]] ? ?]
  end;
  unfold set_started, res_status, res_setHeader, res_write, res_end,
    perform, on_res, modify, bind, gets, throw, flush in *;
  cbn in *; intuition congruence.

Lemma deliver_keeps_head evs w h :
  head (res w) = Some h ->
  head (res (snd (deliver JSON_parse id p evs w))) = Some h.
Proof.
  apply (keeps_deliver (I := fun w => head (res w) = Some h)); primitive.
Qed.

Lemma deliver_after_end evs w :
  ended (res w) = true ->
  sent (res (snd (deliver JSON_parse id p evs w))) = sent (res w)
  /\ ended (res (snd (deliver JSON_parse id p evs w))) = true.
Proof.
  intros He.
  pose proof (keeps_deliver
                (I := fun w' => ended (res w') = true
                                /\ sent (res w') = sent (res w))) as K.
  destruct (K ltac:(primitive) ltac:(primitive) ltac:(primitive)
              ltac:(primitive) ltac:(primitive) ltac:(primitive)
              JSON_parse id p evs w (conj He eq_refl)) as [H1 H2].
  now split.
Qed.

(** X10: the status line and the headers leave once: whatever the agent
    emits afterwards, the head that left stays the head of the response. *)
Theorem head_is_final evs w h :
  head (res w) = Some h ->
  head (res (snd (deliver JSON_parse id p evs w))) = Some h.
Proof.
  apply (keeps_deliver (I := fun w => head (res w) = Some h)); primitive.
Qed.

(** X11: once the body is closed, no event adds to it or reopens it. *)
Theorem nothing_after_end evs w :
  ended (res w) = true ->
  sent (res (snd (deliver JSON_parse id p evs w))) = sent (res w)
  /\ ended (res (snd (deliver JSON_parse id p evs w))) = true.
Proof.
  intros He.
  pose proof (keeps_deliver
                (I := fun w' => ended (res w') = true
                                /\ sent (res w') = sent (res w))) as K.
  destruct (K ltac:(primitive) ltac:(primitive) ltac:(primitive)
              ltac:(primitive) ltac:(primitive) ltac:(primitive)
              JSON_parse id p evs w (conj He eq_refl)) as [H1 H2].
  now split.
Qed.

Lemma listener_effects ev w :
  effects (snd (listener JSON_parse id p ev w)) =
  effects w ++ map (LoggerError "openai stream error") (errors_of [ev]).
Proof.
  set (I := fun fx (w' : world) => effects w' = fx).
  assert (K1 : forall fx b, keeps (I fx) (set_started b)) by (intros fx b; primitive).
  assert (K2 : forall fx c, keeps (I fx) (res_status c)) by (intros fx c; primitive).
  assert (K3 : forall fx n v, keeps (I fx) (res_setHeader n v))
    by (intros fx n v; primitive).
  assert (K4 : forall fx x, keeps (I fx) (res_write x)) by (intros fx x; primitive).
  assert (K5 : forall fx, keeps (I fx) res_end) by (intros fx; primitive).
  destruct ev as [now payload|now|err]; cbn [listener errors_of flat_map map app];
    rewrite ?app_nil_r.
  - cut (keeps (I (effects w)) (on_data JSON_parse id p now payload));
      [intros K; exact (K w eq_refl)|apply keeps_on_data; auto].
  - cut (keeps (I (effects w)) (on_end id p now));
      [intros K; exact (K w eq_refl)|apply keeps_on_end; auto].
  - unfold on_error. unfold bind at 1. cbn [perform modify].
    match goal with
    | |- effects (snd (?c ?w1)) = ?fx =>
        cut (keeps (I fx) c);
        [intros K; exact (K w1 eq_refl)|apply keeps_on_error_reply; auto]
    end.
Qed.

Lemma deliver_effects evs : forall w,
  effects (snd (deliver JSON_parse id p evs w)) =
  effects w ++ map (LoggerError "openai stream error") (errors_of evs).
Proof.
  induction evs as [|ev evs IH]; intros w; cbn [deliver].
  - cbn. now rewrite app_nil_r.
  - pose proof (listener_effects ev w) as H1.
    replace (errors_of (ev :: evs)) with (errors_of [ev] ++ errors_of evs)
      by (unfold errors_of; cbn [flat_map]; now rewrite app_nil_r).
    rewrite map_app, app_assoc, <- H1.
    destruct (listener JSON_parse id p ev w) as [[e|[]] w1]; cbn [snd] in *.
    + rewrite <- IH. now destruct (deliver JSON_parse id p evs w1).
    + apply IH.
Qed.

Lemma coherent_listener ev w :
  coherent w -> coherent (snd (listener JSON_parse id p ev w)).
Proof.
  intros [(fx & cs & ->)|[(Hh & He & Hj)|(Hh & He & Hj)]].
  - destruct ev as [now payload|now|err]; cbn [listener].
    + pose proof (on_data_bridging JSON_parse id p fx (map SseData cs)
                    (now, payload)) as Hd.
      cbn [fst snd] in Hd. rewrite Hd. cbn [snd].
      left. exists fx, (cs ++ emitted JSON_parse id p (now, payload)).
      now rewrite map_app.
    + rewrite on_end_bridging. cbn [snd]. right. left. cbn.
      repeat split. intros e Hin. apply in_app_or in Hin as [Hin|Hin].
      * apply in_map_iff in Hin as [? [? _]]. discriminate.
      * destruct Hin as [?|[?|[]]]; discriminate.
    + destruct cs as [|c cs]; cbn [map].
      * rewrite on_error_fresh. cbn [snd]. right. right. cbn.
        repeat split. eauto.
      * rewrite on_error_streaming. cbn [snd]. right. left. cbn.
        repeat split. intros e [Hin|Hin]; [discriminate|].
        apply in_map_iff in Hin as [? [? _]]. discriminate.
  - right. left.
    pose proof (deliver_keeps_head [ev] w Hh) as H1.
    pose proof (deliver_after_end [ev] w He) as [H2 H3].
    cbn [deliver] in H1, H2, H3.
    destruct (listener JSON_parse id p ev w) as [[e|[]] w1]; cbn [snd] in *;
      repeat split; try assumption; now rewrite H2.
  - right. right.
    pose proof (deliver_keeps_head [ev] w Hh) as H1.
    pose proof (deliver_after_end [ev] w He) as [H2 H3].
    cbn [deliver] in H1, H2, H3.
    destruct (listener JSON_parse id p ev w) as [[e|[]] w1]; cbn [snd] in *;
      repeat split; try assumption; now rewrite H2.
Qed.

Lemma coherent_deliver evs : forall w,
  coherent w -> coherent (snd (deliver JSON_parse id p evs w)).
Proof.
  induction evs as [|ev evs IH]; intros w Hw; cbn [deliver]; [assumption|].
  pose proof (coherent_listener ev Hw) as H1.
  destruct (listener JSON_parse id p ev w) as [[e|[]] w1]; cbn [snd] in H1.
  - specialize (IH w1 H1). now destruct (deliver JSON_parse id p evs w1).
  - now apply IH.
Qed.

End Finality.

(** ** The accepted request and the selection of the models *)

Section Selection.

Variables ChatModel Embeddings : Type.
Variable JSON_parse : string -> option json.
Implicit Types env : Env ChatModel Embeddings.

Lemma last_message_split (ms : list Message) m :
  last_message ms = Some m -> ms = removelast ms ++ [m].
Proof.
  unfold last_message. intros H.
  assert (Hne : ms <> []) by (intros ->; discriminate).
  rewrite (app_removelast_last m Hne) at 1. f_equal. f_equal.
  clear Hne. revert H. induction ms as [|a [|b ms] IH]; cbn.
  - discriminate.
  - congruence.
  - intros H. apply IH. cbn. now rewrite Nat.sub_0_r in *.
Qed.

Lemma validate_last_message body p :
  validate body = inr p ->
  exists message,
    last_message (messages p) = Some message
    /\ messages p = removelast (messages p) ++ [message]
    /\ role message = user
    /\ content message <> "".
Proof.
  intros H. apply validate_schema in H as [_ H].
  unfold last_message_invalid in H.
  destruct (messages p) as [|a l] eqn:E; [discriminate|].
  destruct (last_message (a :: l)) as [m|] eqn:El; [|discriminate].
  exists m. apply orb_false_iff in H as [Hr Hc].
  repeat split.
  - now apply last_message_split.
  - destruct (role m); [reflexivity|discriminate|discriminate].
  - intros Hempty. rewrite Hempty in Hc. discriminate.
Qed.

(** X6: an accepted request ends with a message of the user whose content
    is not empty; the messages before it are the history. *)
Theorem accepted_last_message body p :
  validate body = inr p ->
  exists message,
    last_message (messages p) = Some message
    /\ messages p = removelast (messages p) ++ [message]
    /\ role message = user
    /\ content message <> "".
Proof.
  intros H. apply validate_schema in H as [_ H].
  unfold last_message_invalid in H.
  destruct (messages p) as [|a l] eqn:E; [discriminate|].
  destruct (last_message (a :: l)) as [m|] eqn:El; [|discriminate].
  exists m. apply orb_false_iff in H as [Hr Hc].
  repeat split.
  - now apply last_message_split.
  - destruct (role m); [reflexivity|discriminate|discriminate].
  - intros Hempty. rewrite Hempty in Hc. discriminate.
Qed.

Lemma setup_selects env body p cp cm llm ms cps ep em emb es eps :
  validate body = inr p ->
  chatModelProviders env = (cp, (cm, llm) :: ms) :: cps ->
  embeddingModelProviders env = (ep, (em, emb) :: es) :: eps ->
  exists message,
    last_message (messages p) = Some message
    /\ setup env body initial =
       (inr (Some (p,
                   handleWebSearch env (content message)
                     (map to_base_message (removelast (messages p)))
                     llm emb)),
        bridging
          [GetAvailableChatModelProviders;
           GetAvailableEmbeddingModelProviders;
           LoggerInfo ("searching(" ++ cm ++ " - " ++ em ++ "): "
                         ++ content message)%string]
          []).
Proof.
  intros Hv Hc He.
  destruct (validate_last_message _ Hv) as (m & Hm & _).
  exists m. split; [assumption|].
  unfold setup. rewrite Hv, Hc, He. cbn.
  unfold pick, at_key. cbn. repeat (rewrite String.eqb_refl; cbn).
  rewrite Hm. reflexivity.
Qed.


(** X9: when the first provider of a catalog has no model, the route
    answers the JSON error with status 500 and stops: the agent is not
    started and nothing is logged. *)
Theorem missing_model_answers_500 env body p cp cms cps ep ems eps :
  validate body = inr p ->
  chatModelProviders env = (cp, cms) :: cps ->
  embeddingModelProviders env = (ep, ems) :: eps ->
  cms = [] \/ ems = [] ->
  post_chat_completions JSON_parse env body =
  {| rejected := None; raised := [];
     final :=
       {| res := failed 500 "internal_server_error"
                   (Text "Model or Embedding not found");
          started := false;
          effects := [GetAvailableChatModelProviders;
                      GetAvailableEmbeddingModelProviders] |} |}.
Proof.
  intros Hv Hc He Hempty.
  unfold post_chat_completions, setup. rewrite Hv, Hc, He. cbn.
  unfold pick, at_key. cbn. repeat (rewrite String.eqb_refl; cbn).
  destruct Hempty as [-> | ->].
  - reflexivity.
  - destruct cms as [|[cm llm] ?]; cbn;
      repeat (rewrite String.eqb_refl; cbn); reflexivity.
Qed.

(** The ways the callback can leave its first part. *)
Lemma setup_outcomes env body r w :
  setup env body initial = (r, w) ->
  (r = inr None
   /\ exists code type m,
        res w = failed code type m /\ started w = false
        /\ (code = 400 \/ code = 500))
  \/ (r = inl TypeError /\ res w = fresh_response)
  \/ (exists p evs fx, r = inr (Some (p, evs)) /\ w = bridging fx []).
Proof.
  unfold setup. destruct (validate body) as [m|p] eqn:Hv.
  - cbn. intros H. injection H as <- <-. left. split; [reflexivity|].
    exists 400, "invalid_request_error", m. cbn. auto.
  - destruct (chatModelProviders env) as [|[cp [|[cm llm] ?]] ?];
      destruct (embeddingModelProviders env) as [|[ep [|[em emb] ?]] ?];
      cbn; unfold pick, at_key; cbn; repeat (rewrite String.eqb_refl; cbn);
      try (intros H; injection H as <- <-;
           first [ right; left; now split
                 | left; split; [reflexivity|];
                   exists 500, "internal_server_error",
                     (Text "Model or Embedding not found"); cbn; auto ]).
    destruct (validate_last_message _ Hv) as (m & Hm & _). rewrite Hm. cbn.
    intros H. injection H as <- <-. right. right. eauto.
Qed.

End Selection.

(** ** What the client can receive *)

Section Wire.

Variables ChatModel Embeddings : Type.
Variable JSON_parse : string -> option json.
Implicit Types env : Env ChatModel Embeddings.

Local Abbreviation post := (post_chat_completions JSON_parse).

Lemma post_coherent env body :
  (exists code type m,
     res (final (post env body)) = failed code type m
     /\ (code = 400 \/ code = 500))
  \/ res (final (post env body)) = fresh_response
  \/ coherent (final (post env body)).
Proof.
  unfold post_chat_completions.
  destruct (setup env body initial) as [r w] eqn:Hs.
  destruct (setup_outcomes _ _ Hs)
    as [(-> & code & type & m & Hr & _ & Hc)|[(-> & Hr)|(p & evs & fx & -> & ->)]].
  - left. cbn. eauto 6.
  - right. left. assumption.
  - right. right.
    pose proof (coherent_deliver JSON_parse (uuid_v4 env) p evs
                  (w := bridging fx [])) as H.
    destruct (deliver JSON_parse (uuid_v4 env) p evs (bridging fx [])).
    cbn [final snd] in *. apply H. left. now exists fx, [].
Qed.

(** X12: whatever the request, the providers and the agent do, a chunk is
    only ever written to a response whose head left with status 200 and
    the three event-stream headers. *)
Theorem chunks_only_on_event_stream env body c :
  In (SseData c) (sent (res (final (post env body)))) ->
  head (res (final (post env body))) = Some (200, sse_headers).
Proof.
  intros Hin.
  destruct (post_coherent env body)
    as [(code & type & m & Hr & _)|[Hr|[(fx & cs & Hw)|[(Hh & _)|(_ & _ & e & He)]]]].
  - rewrite Hr in Hin. destruct Hin as [?|[]]; discriminate.
  - rewrite Hr in Hin. destruct Hin.
  - rewrite Hw in *. destruct cs; [destruct Hin|reflexivity].
  - assumption.
  - rewrite He in Hin. destruct Hin as [?|[]]; discriminate.
Qed.

(** X13: an error object is never mixed with anything else: when one is in
    the body it is the whole body, the body is closed, and the head left
    with status 400 or 500 and the JSON content type. *)
Theorem error_object_stands_alone env body e :
  In (JsonError e) (sent (res (final (post env body)))) ->
  sent (res (final (post env body))) = [JsonError e]
  /\ ended (res (final (post env body))) = true
  /\ (head (res (final (post env body))) = Some (400, json_headers)
      \/ head (res (final (post env body))) = Some (500, json_headers)).
Proof.
  intros Hin.
  destruct (post_coherent env body)
    as [(code & type & m & Hr & Hc)|[Hr|[(fx & cs & Hw)|[(_ & _ & Hn)|(Hh & He & e' & Hs)]]]].
  - rewrite Hr in *. cbn in *. destruct Hin as [Hin|[]]. injection Hin as <-.
    repeat split. destruct Hc as [-> | ->]; auto.
  - rewrite Hr in Hin. destruct Hin.
  - rewrite Hw in Hin. exfalso.
    destruct cs as [|c cs]; cbn in Hin; [assumption|].
    destruct Hin as [Hin|Hin]; [discriminate|].
    apply in_map_iff in Hin as [? [? _]]. discriminate.
  - exfalso. exact (Hn e Hin).
  - rewrite Hs in *. destruct Hin as [Hin|[]]. injection Hin as <-. auto.
Qed.


(** X15: the end of the agent settles the stream: events after it add
    nothing, the body stays the content chunks, the stop chunk and the
    terminal line. *)
Theorem end_is_final env body p ds t rest :
  serves env body p (map data' ds ++ end_ t :: rest) ->
  let r := res (final (post env body)) in
  sent r =
    map SseData (flat_map (emitted JSON_parse (uuid_v4 env) p) ds)
    ++ [SseData (stop_chunk (uuid_v4 env) p t); Literal DONE]
  /\ head r = Some (200, sse_headers)
  /\ ended r = true.
Proof.
  intros [w0 H]. cbv zeta.
  destruct (setup_ready _ _ H) as [_ [fx ->]].
  rewrite (post_serves JSON_parse _ _ H). cbn [final].
  rewrite deliver_app. cbn [snd].
  rewrite deliver_data. cbn [snd app deliver listener].
  rewrite on_end_bridging.
  set (w1 := {| res := closed _; started := true; effects := fx |}).
  pose proof (deliver_keeps_head JSON_parse (uuid_v4 env) p rest w1 eq_refl) as Hh.
  pose proof (deliver_after_end JSON_parse (uuid_v4 env) p rest w1 eq_refl)
    as [Hs He].
  now destruct (deliver JSON_parse (uuid_v4 env) p rest w1).
Qed.

(** X16: every error the agent signals goes to the logger, once and in
    order, after the line that announces the search; the listeners log
    nothing else. *)
Theorem agent_errors_logged env body p evs :
  serves env body p evs ->
  exists line,
    effects (final (post env body)) =
    [GetAvailableChatModelProviders; GetAvailableEmbeddingModelProviders;
     LoggerInfo line]
    ++ map (LoggerError "openai stream error") (errors_of evs).
Proof.
  intros [w0 H].
  rewrite (post_serves JSON_parse _ _ H). cbn [final].
  rewrite deliver_effects.
  assert (exists line,
             effects w0 = [GetAvailableChatModelProviders;
                           GetAvailableEmbeddingModelProviders;
                           LoggerInfo line]) as [line ->]; [|eauto].
  revert H. unfold setup.
  destruct (validate body) as [m|p']; [discriminate|].
  destruct (chatModelProviders env) as [|[cp [|[cm llm] ?]] ?];
    destruct (embeddingModelProviders env) as [|[ep [|[em emb] ?]] ?];
    cbn; unfold pick, at_key; cbn; repeat (rewrite String.eqb_refl; cbn);
    try discriminate.
  destruct (last_message (messages p')) as [message|]; cbn; [|discriminate].
  intros H. injection H as <- <- <-. cbn. eauto.
Qed.

End Wire.

(** ** More on the request schema *)

Section Schema.

Variables ChatModel Embeddings : Type.
Variable JSON_parse : string -> option json.
Implicit Types env : Env ChatModel Embeddings.

Local Abbreviation post := (post_chat_completions JSON_parse).

Lemma requestParamsSchema_stream o p :
  requestParamsSchema (JObj o) = inr p ->
  stream_schema (get "stream" o) = Some (stream p).
Proof.
  unfold requestParamsSchema.
  destruct (messages_schema _), (model_schema _), (stream_schema _),
    (temperature_schema _), (number_field (get "frequency_penalty" o)),
    (number_field (get "max_tokens" o)),
    (number_field (get "presence_penalty" o)),
    (number_field (get "top_p" o)), (stop_schema _),
    (response_raw_schema _); try discriminate.
  intros H. now injection H as <-.
Qed.

(** X1: the defaults of the schema. In an accepted request an absent
    [model] is perplexica, an absent [stream] and an absent [response_raw]
    are false, an absent [temperature] is 1, and the other generation
    parameters stay undefined. *)
Theorem schema_defaults o p :
  validate (JObj o) = inr p ->
  (get "model" o = None -> model p = notnull perplexica)
  /\ (get "stream" o = None -> stream p = notnull false)
  /\ (get "response_raw" o = None -> response_raw p = notnull (defined false))
  /\ (get "temperature" o = None -> temperature p = notnull (defined 1))
  /\ (get "frequency_penalty" o = None ->
      frequency_penalty p = notnull undefined)
  /\ (get "max_tokens" o = None -> max_tokens p = notnull undefined)
  /\ (get "presence_penalty" o = None ->
      presence_penalty p = notnull undefined)
  /\ (get "top_p" o = None -> top_p p = notnull undefined)
  /\ (get "stop" o = None -> stop p = notnull undefined).
Proof.
  intros H. apply validate_schema in H as [H _].
  pose proof (requestParamsSchema_stream _ H) as S.
  apply requestParamsSchema_fields in H
    as (_ & D & T & F & X & P & O & B & R).
  repeat split; intros E;
    match goal with
    | Hf : _ (get ?k o) = Some _ |- _ =>
        match type of E with get k o = None => rewrite E in Hf; cbn in Hf end
    end; congruence.
Qed.

Lemma number_value v r :
  nullable_ (optional_ number) (Some v) = Some r ->
  v = JNull \/ exists n, v = JNum n.
Proof. destruct v; cbn; try discriminate; eauto. Qed.

Lemma boolean_value v (r : nullable bool) :
  nullable_ boolean (Some v) = Some r -> v = JNull \/ exists b, v = JBool b.
Proof. destruct v; cbn; try discriminate; eauto. Qed.

Lemma optional_boolean_value v r :
  nullable_ (optional_ boolean) (Some v) = Some r ->
  v = JNull \/ exists b, v = JBool b.
Proof. destruct v; cbn; try discriminate; eauto. Qed.

(** X2: a [model] other than "perplexica" or [null] is refused with status
    400 before the providers are asked. *)
Theorem unsupported_model_rejected env o v :
  get "model" o = Some v ->
  v <> JNull -> v <> JStr "perplexica" ->
  exists message,
    post env (JObj o) =
    {| rejected := None; raised := [];
       final := {| res := failed 400 "invalid_request_error" message;
                   started := false; effects := [] |} |}.
Proof.
  intros Hget Hn Hp.
  destruct (validate (JObj o)) as [m|p] eqn:Hv.
  - exists m. now apply post_invalid.
  - exfalso. apply validate_schema in Hv as [Hv _].
    apply requestParamsSchema_fields in Hv as (_ & D & _).
    rewrite Hget in D. unfold model_schema, default, nullable_, enum in D.
    destruct v as [| | |s| |]; try discriminate; [contradiction|].
    cbn in D. destruct (String.eqb_spec s "perplexica") as [->|];
      [contradiction|discriminate].
Qed.

(** X3: a generation parameter of the wrong type is refused with status
    400: the five numeric ones must be numbers or [null], [stream] and
    [response_raw] booleans or [null]. *)
Theorem ill_typed_parameter_rejected env o k v :
  get k o = Some v ->
  v <> JNull ->
  (In k number_keys /\ forall n, v <> JNum n)
  \/ (In k boolean_keys /\ forall b, v <> JBool b) ->
  exists message,
    post env (JObj o) =
    {| rejected := None; raised := [];
       final := {| res := failed 400 "invalid_request_error" message;
                   started := false; effects := [] |} |}.
Proof.
  intros Hget Hn Hbad.
  destruct (validate (JObj o)) as [m|p] eqn:Hv.
  - exists m. now apply post_invalid.
  - exfalso. apply validate_schema in Hv as [Hv _].
    pose proof (requestParamsSchema_stream _ Hv) as S.
    apply requestParamsSchema_fields in Hv
      as (_ & _ & T & F & X & P & O & _ & R).
    destruct Hbad as [[Hk Hv']|[Hk Hv']].
    + assert (exists r, nullable_ (optional_ number) (Some v) = Some r)
        as [r Hr].
      { destruct Hk as [<-|[<-|[<-|[<-|[<-|[]]]]]]; rewrite Hget in *; eauto. }
      apply number_value in Hr as [?|[n ?]]; [contradiction|].
      now apply (Hv' n).
    + destruct Hk as [<-|[<-|[]]]; rewrite Hget in *.
      * apply boolean_value in S as [?|[b ?]]; [contradiction|].
        now apply (Hv' b).
      * apply optional_boolean_value in R as [?|[b ?]]; [contradiction|].
        now apply (Hv' b).
Qed.

(** X4: the validator reads the ten keys of the schema and nothing else:
    two bodies that agree on them are accepted with the same parameters or
    refused with the same error. *)
Theorem validate_reads_schema_keys o1 o2 :
  (forall k, In k schema_keys -> get k o1 = get k o2) ->
  validate (JObj o1) = validate (JObj o2).
Proof.
  intros H. unfold validate, requestParamsSchema.
  rewrite (H "messages"), (H "model"), (H "stream"), (H "temperature"),
    (H "frequency_penalty"), (H "max_tokens"), (H "presence_penalty"),
    (H "top_p"), (H "stop"), (H "response_raw") by (cbn; tauto).
  reflexivity.
Qed.

(** X5: the generation parameters are accepted and go nowhere: two accepted
    requests with the same [messages], [model] and [response_raw] get the
    same response in every respect. *)
Theorem generation_parameters_not_forwarded env o1 o2 p1 p2 :
  validate (JObj o1) = inr p1 ->
  validate (JObj o2) = inr p2 ->
  get "messages" o1 = get "messages" o2 ->
  get "model" o1 = get "model" o2 ->
  get "response_raw" o1 = get "response_raw" o2 ->
  post env (JObj o1) = post env (JObj o2).
Proof.
  intros H1 H2 Em Ed Er.
  assert (messages p1 = messages p2 /\ model p1 = model p2
          /\ response_raw p1 = response_raw p2) as (Hm & Hd & Hr).
  { pose proof H1 as S1. pose proof H2 as S2.
    apply validate_schema in S1 as [S1 _].
    apply validate_schema in S2 as [S2 _].
    apply requestParamsSchema_fields in S1
      as (M1 & D1 & _ & _ & _ & _ & _ & _ & R1).
    apply requestParamsSchema_fields in S2
      as (M2 & D2 & _ & _ & _ & _ & _ & _ & R2).
    rewrite Em in M1. rewrite Ed in D1. rewrite Er in R1.
    repeat split; congruence. }
  unfold post_chat_completions, setup. rewrite H1, H2, Hm.
  destruct (chatModelProviders env) as [|[cp [|[cm llm] ?]] ?];
    destruct (embeddingModelProviders env) as [|[ep [|[em emb] ?]] ?];
    cbn; unfold pick, at_key; cbn; repeat (rewrite String.eqb_refl; cbn);
    try reflexivity.
  destruct (last_message (messages p2)) as [message|]; cbn; [|reflexivity].
  now rewrite (deliver_ext JSON_parse (uuid_v4 env) p1 p2 _ Hd Hr).
Qed.

(** X7: [model: null] is accepted as it is, and then every chunk of the
    response carries a null model. *)
Theorem null_model_in_chunks env o p evs c :
  serves env (JObj o) p evs ->
  get "model" o = Some JNull ->
  In (SseData c) (sent (res (final (post env (JObj o))))) ->
  Chunk.model c = null.
Proof.
  intros [w0 H] Hget Hin.
  destruct (setup_ready _ _ H) as [Hv [fx ->]].
  apply validate_schema in Hv as [Hv _].
  apply requestParamsSchema_fields in Hv as (_ & D & _).
  rewrite Hget in D. cbn in D. injection D as D.
  rewrite (post_serves JSON_parse _ _ H) in Hin. cbn [final] in Hin.
  destruct (deliver_appends JSON_parse (uuid_v4 env) p evs (bridging fx []))
    as [xs [E F]].
  rewrite E in Hin. cbn [bridging res fresh_response sent app] in Hin.
  rewrite Forall_forall in F. destruct (F _ Hin) as [ev [_ Hw]].
  destruct ev as [now payload|now|err]; cbn in Hw; [| |contradiction].
  - destruct Hw as [content [-> _]]. cbn. congruence.
  - subst c. cbn. congruence.
Qed.

End Schema.

(** * The OpenAI provider *)

Section OpenAIProvider.

Import OpenAI.

Variables ChatModel Embeddings : Type.
Variable new_ChatOpenAI : ChatFields -> string + ChatModel.
Variable new_OpenAIEmbeddings : EmbeddingsFields -> string + Embeddings.

Local Abbreviation loadChat := (loadOpenAIChatModels new_ChatOpenAI).
Local Abbreviation loadEmbeddings :=
  (loadOpenAIEmbeddingsModels new_OpenAIEmbeddings).

Lemma literal_inr {F H : Type} (new : F -> string + H) entries : forall o,
  literal new entries = inr o ->
  map fst o = map fst entries
  /\ forall k h, In (k, h) o ->
                 exists f, In (k, f) entries /\ new f = inr h.
Proof.
  induction entries as [|[k f] entries IH]; intros o; cbn.
  - intros E. injection E as <-. split; [reflexivity|]. intros ? ? [].
  - destruct (new f) as [err|h] eqn:Ef; [discriminate|].
    destruct (literal new entries) as [err|o']; [discriminate|].
    intros E. injection E as <-.
    destruct (IH o' eq_refl) as [Hk Hin]. split; [cbn; now rewrite Hk|].
    intros k0 h0 [E|Hin0].
    + injection E as <- <-. exists f. split; [now left|assumption].
    + destruct (Hin _ _ Hin0) as [f0 [? ?]]. exists f0. split; [now right|assumption].
Qed.

Lemma literal_inl {F H : Type} (new : F -> string + H) entries err :
  literal new entries = inl err ->
  exists k f, In (k, f) entries /\ new f = inl err.
Proof.
  induction entries as [|[k f] entries IH]; cbn; [discriminate|].
  destruct (new f) as [err'|h] eqn:Ef.
  - intros E. injection E as <-. exists k, f. split; [now left|assumption].
  - destruct (literal new entries) as [err'|o']; [|discriminate].
    intros E. injection E as <-.
    destruct (IH eq_refl) as (k0 & f0 & ? & ?).
    exists k0, f0. split; [now right|assumption].
Qed.

Lemma literal_total {F H : Type} (new : F -> string + H) (mk : F -> H)
    entries :
  (forall f, new f = inr (mk f)) ->
  literal new entries = inr (map (fun e => (fst e, mk (snd e))) entries).
Proof.
  intros Hnew. induction entries as [|[k f] entries IH]; cbn; [reflexivity|].
  now rewrite Hnew, IH.
Qed.

Lemma endpoint_log_no_error ep s : ~ In (error_ s) (endpoint_log ep).
Proof.
  unfold endpoint_log. destruct (if_set ep); cbn; [|tauto].
  intros [?|[]]. discriminate.
Qed.

(** X17: every chat model the loader returns was built with the API key
    and the endpoint of the configuration and with temperature 0.7; it is
    the configured model under its own name when one is configured, and
    otherwise one of the five listed models under its label. *)
Theorem chat_models_carry_configuration config k h :
  In (k, h) (snd (loadChat config)) ->
  exists key name,
    if_set (getOpenaiApiKey config) = Some key
    /\ new_ChatOpenAI
         {| chat_modelName := name;
            chat_temperature := QArith_base.Qmake 7 10;
            chat_openAIApiKey := key;
            chat_baseURL := getOpenaiApiEndpoint config |} = inr h
    /\ match if_set (getOpenaiModel config) with
       | Some model => k = model /\ name = model
       | None => In (k, name) chatModels
       end.
Proof.
  unfold loadOpenAIChatModels.
  destruct (if_set (getOpenaiApiKey config)) as [key|]; [|intros []].
  destruct (if_set (getOpenaiModel config)) as [model|].
  - destruct (literal _ _) as [err|o] eqn:E; [intros []|].
    intros Hin. destruct (literal_inr _ _ E) as [_ Hf].
    destruct (Hf _ _ Hin) as (f & [Ef|[]] & Hnew). injection Ef as <- <-.
    exists key, model. auto.
  - destruct (literal _ _) as [err|o] eqn:E; [intros []|].
    intros Hin. destruct (literal_inr _ _ E) as [_ Hf].
    destruct (Hf _ _ Hin) as (f & Hinf & Hnew).
    apply in_map_iff in Hinf as ([k0 name] & Ef & Hin0).
    cbn in Ef. injection Ef as <- <-.
    exists key, name. auto.
Qed.

(** X18: the chat loader is all or nothing, and it never throws. Without
    an API key (undefined or empty) it returns the empty map and logs
    nothing. With one, either a constructor threw, the map is empty and
    the last thing logged is the error; or no error is logged and the map
    has the configured model alone, or else the five listed models in
    their order. *)
Theorem chat_models_all_or_nothing config :
  let logged := fst (loadChat config) in
  let models := snd (loadChat config) in
  match if_set (getOpenaiApiKey config) with
  | None => logged = [] /\ models = []
  | Some _ =>
      (exists k f err before,
         new_ChatOpenAI f = inl err
         /\ chat_modelName f =
              match if_set (getOpenaiModel config) with
              | Some model => model
              | None => match get k chatModels with Some n => n | None => k end
              end
         /\ models = []
         /\ logged = before
                     ++ [error_ ("Error loading OpenAI models: " ++ err)%string])
      \/ ((forall s, ~ In (error_ s) logged)
          /\ map fst models =
               match if_set (getOpenaiModel config) with
               | Some model => [model]
               | None => ["GPT-3.5 turbo"; "GPT-4"; "GPT-4 turbo";
                          "GPT-4 omni"; "GPT-4 omni mini"]
               end)
  end.
Proof.
  cbv zeta. unfold loadOpenAIChatModels.
  destruct (if_set (getOpenaiApiKey config)) as [key|]; [|now split].
  destruct (if_set (getOpenaiModel config)) as [model|].
  - destruct (literal _ _) as [err|o] eqn:E; cbn [fst snd].
    + left. apply literal_inl in E as (k & f & [Ef|[]] & Hnew).
      injection Ef as <- <-. eauto 10.
    + right. destruct (literal_inr _ _ E) as [Hk _]. split; [|exact Hk].
      intros s Hin. apply in_app_or in Hin as [Hin|[Hin|[]]];
        [exact (endpoint_log_no_error _ _ Hin)|discriminate].
  - destruct (literal _ _) as [err|o] eqn:E; cbn [fst snd].
    + left. apply literal_inl in E as (k & f & Hin & Hnew).
      exists k, f, err, (endpoint_log (getOpenaiApiEndpoint config)).
      repeat split; try assumption.
      cbn in Hin.
      destruct Hin as [Ef|[Ef|[Ef|[Ef|[Ef|[]]]]]]; injection Ef as <- <-;
        reflexivity.
    + right. destruct (literal_inr _ _ E) as [Hk _].
      split; [apply endpoint_log_no_error|exact Hk].
Qed.

(** X19: every embedding model the loader returns was built with the API
    key and the endpoint of the configuration; it is the configured model
    under its own name when one is configured, and otherwise one of the
    two listed models under its label. *)
Theorem embedding_models_carry_configuration config k h :
  In (k, h) (snd (loadEmbeddings config)) ->
  exists key name,
    if_set (getOpenaiApiKey config) = Some key
    /\ new_OpenAIEmbeddings
         {| emb_modelName := name;
            emb_openAIApiKey := key;
            emb_baseURL := getOpenaiApiEndpoint config |} = inr h
    /\ match if_set (getOpenaiEmbeddingsModel config) with
       | Some model => k = model /\ name = model
       | None => In (k, name) embeddingModels
       end.
Proof.
  unfold loadOpenAIEmbeddingsModels.
  destruct (if_set (getOpenaiApiKey config)) as [key|]; [|intros []].
  destruct (if_set (getOpenaiEmbeddingsModel config)) as [model|].
  - destruct (literal _ _) as [err|o] eqn:E; [intros []|].
    intros Hin. destruct (literal_inr _ _ E) as [_ Hf].
    destruct (Hf _ _ Hin) as (f & [Ef|[]] & Hnew). injection Ef as <- <-.
    exists key, model. auto.
  - destruct (literal _ _) as [err|o] eqn:E; [intros []|].
    intros Hin. destruct (literal_inr _ _ E) as [_ Hf].
    destruct (Hf _ _ Hin) as (f & Hinf & Hnew).
    apply in_map_iff in Hinf as ([k0 name] & Ef & Hin0).
    cbn in Ef. injection Ef as <- <-.
    exists key, name. auto.
Qed.

(** X20: the embeddings loader is all or nothing, and it never throws:
    empty and silent without an API key; empty with the error logged last
    when a constructor threw; otherwise the configured model alone, or
    else the two listed models in their order, and no error logged. *)
Theorem embedding_models_all_or_nothing config :
  let logged := fst (loadEmbeddings config) in
  let models := snd (loadEmbeddings config) in
  match if_set (getOpenaiApiKey config) with
  | None => logged = [] /\ models = []
  | Some _ =>
      (exists f err before,
         new_OpenAIEmbeddings f = inl err
         /\ models = []
         /\ logged = before
                     ++ [error_ ("Error loading OpenAI embeddings model: "
                                   ++ err)%string])
      \/ ((forall s, ~ In (error_ s) logged)
          /\ map fst models =
               match if_set (getOpenaiEmbeddingsModel config) with
               | Some model => [model]
               | None => ["Text embedding 3 small"; "Text embedding 3 large"]
               end)
  end.
Proof.
  cbv zeta. unfold loadOpenAIEmbeddingsModels.
  destruct (if_set (getOpenaiApiKey config)) as [key|]; [|now split].
  destruct (if_set (getOpenaiEmbeddingsModel config)) as [model|].
  - destruct (literal _ _) as [err|o] eqn:E; cbn [fst snd].
    + left. apply literal_inl in E as (k & f & _ & Hnew). eauto 10.
    + right. destruct (literal_inr _ _ E) as [Hk _]. split; [|exact Hk].
      intros s Hin. apply in_app_or in Hin as [Hin|[Hin|[]]];
        [exact (endpoint_log_no_error _ _ Hin)|discriminate].
  - destruct (literal _ _) as [err|o] eqn:E; cbn [fst snd].
    + left. apply literal_inl in E as (k & f & _ & Hnew). eauto 10.
    + right. destruct (literal_inr _ _ E) as [Hk _].
      split; [apply endpoint_log_no_error|exact Hk].
Qed.

End OpenAIProvider.

(** ** The provider and the route together *)

Section ProviderAndRoute.

Import OpenAI.

Variables ChatModel Embeddings : Type.
Variable new_ChatOpenAI : ChatFields -> string + ChatModel.
Variable new_OpenAIEmbeddings : EmbeddingsFields -> string + Embeddings.
Variable mk_chat : ChatFields -> ChatModel.
Variable mk_embeddings : EmbeddingsFields -> Embeddings.

(** X21: when the OpenAI provider comes first in both catalogs, an API key
    is configured and the constructors do not throw, every accepted request
    reaches the agent, with the configured chat model or else gpt-3.5-turbo
    and the configured embedding model or else text-embedding-3-small,
    both built with the key and the endpoint of the configuration. *)
Theorem openai_models_reach_agent
    (env : Env ChatModel Embeddings) config key body p pn cps qn eps :
  if_set (getOpenaiApiKey config) = Some key ->
  (forall f, new_ChatOpenAI f = inr (mk_chat f)) ->
  (forall f, new_OpenAIEmbeddings f = inr (mk_embeddings f)) ->
  chatModelProviders env =
    (pn, snd (loadOpenAIChatModels new_ChatOpenAI config)) :: cps ->
  embeddingModelProviders env =
    (qn, snd (loadOpenAIEmbeddingsModels new_OpenAIEmbeddings config)) :: eps ->
  validate body = inr p ->
  exists message,
    last_message (messages p) = Some message
    /\ serves env body p
         (handleWebSearch env (content message)
            (map to_base_message (removelast (messages p)))
            (mk_chat
               (chat_fields key (getOpenaiApiEndpoint config)
                  match if_set (getOpenaiModel config) with
                  | Some model => model
                  | None => "gpt-3.5-turbo"
                  end))
            (mk_embeddings
               (embeddings_fields key (getOpenaiApiEndpoint config)
                  match if_set (getOpenaiEmbeddingsModel config) with
                  | Some model => model
                  | None => "text-embedding-3-small"
                  end))).
Proof.
  intros Hkey Hc He Hcp Hep Hv.
  unfold loadOpenAIChatModels in Hcp. unfold loadOpenAIEmbeddingsModels in Hep.
  rewrite Hkey in Hcp, Hep.
  assert (exists cm ms,
             chatModelProviders env =
             (pn, (cm, mk_chat
                         (chat_fields key (getOpenaiApiEndpoint config)
                            match if_set (getOpenaiModel config) with
                            | Some model => model
                            | None => "gpt-3.5-turbo"
                            end)) :: ms) :: cps) as (cm & ms & Hcp').
  { destruct (if_set (getOpenaiModel config)) as [model|];
      rewrite (literal_total _ mk_chat _ Hc) in Hcp; cbn in Hcp; eauto. }
  assert (exists em es,
             embeddingModelProviders env =
             (qn, (em, mk_embeddings
                         (embeddings_fields key (getOpenaiApiEndpoint config)
                            match if_set (getOpenaiEmbeddingsModel config) with
                            | Some model => model
                            | None => "text-embedding-3-small"
                            end)) :: es) :: eps) as (em & es & Hep').
  { destruct (if_set (getOpenaiEmbeddingsModel config)) as [model|];
      rewrite (literal_total _ mk_embeddings _ He) in Hep; cbn in Hep; eauto. }
  destruct (setup_selects _ _ Hv Hcp' Hep') as (m & Hm & Hs).
  exists m. split; [assumption|]. eexists. exact Hs.
Qed.

End ProviderAndRoute.

(** ** Events on which the listener throws *)

Section Throwing.

Variable JSON_parse : string -> option json.
Variable id : string.
Variable p : Params.

Lemma emitted_when_thrown d :
  returns JSON_parse p d = false -> emitted JSON_parse id p d = [].
Proof.
  unfold returns, thrown, emitted.
  destruct (truthy (response_raw p)); [discriminate|].
  destruct (JSON_parse (snd d)) as [[]|]; try discriminate; reflexivity.
Qed.

Lemma emitted_filter ds :
  flat_map (emitted JSON_parse id p) (filter (returns JSON_parse p) ds) =
  flat_map (emitted JSON_parse id p) ds.
Proof.
  induction ds as [|d ds IH]; [reflexivity|]. cbn.
  destruct (returns JSON_parse p d) eqn:E; cbn; rewrite IH; [reflexivity|].
  now rewrite (emitted_when_thrown _ E).
Qed.

(** Without [response_raw], the JSON text [null] makes the data listener
    throw a TypeError (the read of [parsedData.type]) before it writes
    anything. *)
Theorem null_payload_throws now payload w :
  truthy (response_raw p) = false ->
  JSON_parse payload = Some JNull ->
  on_data JSON_parse id p now payload w = (inl TypeError, w).
Proof. intros Hraw Hp. unfold on_data. now rewrite Hraw, Hp. Qed.

(** X22: a data event on which the listener throws leaves no trace in the
    response: a stream in which such events occur ends in the same world
    as the stream without them, one exception per such event apart. *)
Theorem throwing_events_leave_no_trace fx ds t :
  snd (deliver JSON_parse id p (map data' ds ++ [end_ t]) (bridging fx [])) =
  snd (deliver JSON_parse id p
         (map data' (filter (returns JSON_parse p) ds) ++ [end_ t])
         (bridging fx []))
  /\ length (fst (deliver JSON_parse id p (map data' ds ++ [end_ t])
                    (bridging fx []))) =
     length (filter (fun d => negb (returns JSON_parse p d)) ds).
Proof.
  rewrite !deliver_app, !deliver_data. cbn [fst snd app deliver listener].
  rewrite emitted_filter, !on_end_bridging. cbn [fst snd].
  split; [reflexivity|]. rewrite app_nil_r.
  induction ds as [|d ds IH]; [reflexivity|]. cbn [flat_map filter].
  rewrite length_app, IH. unfold returns at 2, thrown.
  destruct (truthy (response_raw p)); [reflexivity|].
  destruct (JSON_parse (snd d)) as [[]|]; reflexivity.
Qed.

End Throwing.

(** * More runs *)

Section MoreRuns.

Import Examples Cases OpenAI.

Local Abbreviation parse := Reference.JSON_parse.
Local Abbreviation post := (post_chat_completions Reference.JSON_parse).

Lemma schema_defaults_witness :
  model rust_params = notnull perplexica
  /\ stream rust_params = notnull false
  /\ response_raw rust_params = notnull (defined false)
  /\ temperature rust_params = notnull (defined 1).
Proof.
  destruct (@schema_defaults unstreamed rust_params eq_refl)
    as (Hm & Hs & Hr & Ht & _).
  exact (conj (Hm eq_refl) (conj (Hs eq_refl) (conj (Hr eq_refl) (Ht eq_refl)))).
Defined.

Lemma unsupported_model_rejected_witness :
  exists message,
    post (env []) (JObj other_model) =
    {| rejected := None; raised := [];
       final := {| res := failed 400 "invalid_request_error" message;
                   started := false; effects := [] |} |}.
Proof.
  apply (@unsupported_model_rejected unit unit parse (env []) other_model
           (JStr "gpt-4o") eq_refl); discriminate.
Defined.

Lemma ill_typed_parameter_rejected_witness :
  exists message,
    post (env []) (JObj hot) =
    {| rejected := None; raised := [];
       final := {| res := failed 400 "invalid_request_error" message;
                   started := false; effects := [] |} |}.
Proof.
  apply (@ill_typed_parameter_rejected unit unit parse (env []) hot
           "temperature" (JStr "hot") eq_refl); [discriminate|].
  left. split; [now left|discriminate].
Defined.

Lemma validate_reads_schema_keys_witness :
  validate (JObj unstreamed) = validate (JObj with_user).
Proof.
  apply validate_reads_schema_keys.
  intros k Hk. cbn in Hk.
  repeat (destruct Hk as [<-|Hk]; [reflexivity|]). destruct Hk.
Defined.

Lemma generation_parameters_not_forwarded_witness :
  post (env (map data' answer ++ [end_ t3])) (JObj cold) =
  post (env (map data' answer ++ [end_ t3])) (JObj short).
Proof.
  eapply (@generation_parameters_not_forwarded unit unit parse
            (env (map data' answer ++ [end_ t3])) cold short);
    vm_compute; reflexivity.
Defined.

Lemma accepted_last_message_witness :
  exists message,
    last_message (messages rust_params) = Some message
    /\ messages rust_params = removelast (messages rust_params) ++ [message]
    /\ role message = user
    /\ content message <> "".
Proof. exact (@accepted_last_message rust rust_params eq_refl). Defined.

Lemma null_model_in_chunks_witness :
  Chunk.model (stop_chunk "b5a1c2d3" null_model_params t3) = null.
Proof.
  apply (@null_model_in_chunks unit unit parse (env [end_ t3]) null_model
           null_model_params [end_ t3]).
  - eexists. vm_compute. reflexivity.
  - reflexivity.
  - vm_compute. left. reflexivity.
Defined.


Lemma missing_model_answers_500_witness :
  post no_chat_model rust =
  {| rejected := None; raised := [];
     final :=
       {| res := failed 500 "internal_server_error"
                   (Text "Model or Embedding not found");
          started := false;
          effects := [GetAvailableChatModelProviders;
                      GetAvailableEmbeddingModelProviders] |} |}.
Proof.
  exact (@missing_model_answers_500 unit unit parse no_chat_model rust
           rust_params _ _ _ _ _ _ eq_refl eq_refl eq_refl
           (or_introl eq_refl)).
Defined.

Lemma head_is_final_witness :
  head (res (snd (deliver parse "b5a1c2d3" rust_params
                    [data t2 response_event; end_ t3] after_failure))) =
  Some (500, json_headers).
Proof.
  exact (@head_is_final parse "b5a1c2d3" rust_params
           [data t2 response_event; end_ t3] after_failure _ eq_refl).
Defined.

Lemma nothing_after_end_witness :
  sent (res (snd (deliver parse "b5a1c2d3" rust_params
                    [data t2 response_event; end_ t3] after_failure))) =
  [JsonError internal_error].
Proof.
  exact (proj1 (@nothing_after_end parse "b5a1c2d3" rust_params
                  [data t2 response_event; end_ t3] after_failure eq_refl)).
Defined.

Lemma chunks_only_on_event_stream_witness :
  head (res (final (post (env (map data' answer ++ [error "ECONNRESET"]))
                         rust))) =
  Some (200, sse_headers).
Proof.
  apply (@chunks_only_on_event_stream unit unit parse
           (env (map data' answer ++ [error "ECONNRESET"])) rust
           (createDelta "b5a1c2d3" rust_params t2
              (Some (JStr "Rust ownership is...")) null)).
  vm_compute. left. reflexivity.
Defined.

Lemma error_object_stands_alone_witness :
  sent (res (final (post (env [error "ECONNREFUSED"; end_ t3]) rust))) =
  [JsonError internal_error].
Proof.
  apply (@error_object_stands_alone unit unit parse
           (env [error "ECONNREFUSED"; end_ t3]) rust internal_error).
  vm_compute. left. reflexivity.
Defined.


Lemma end_is_final_witness :
  let r := res (final (post (env (map data' answer
                                    ++ end_ t3 :: [data t3 response_event;
                                                   error "late"])) rust)) in
  sent r =
    map SseData (flat_map (emitted parse "b5a1c2d3" rust_params) answer)
    ++ [SseData (stop_chunk "b5a1c2d3" rust_params t3); Literal DONE]
  /\ head r = Some (200, sse_headers)
  /\ ended r = true.
Proof.
  exact (@end_is_final unit unit parse _ rust rust_params answer t3
           [data t3 response_event; error "late"] (serves_rust _)).
Defined.

Lemma agent_errors_logged_witness :
  exists line,
    effects (final (post (env [error "first"; data t1 "x"; error "second"])
                         rust)) =
    [GetAvailableChatModelProviders; GetAvailableEmbeddingModelProviders;
     LoggerInfo line]
    ++ map (LoggerError "openai stream error") ["first"; "second"].
Proof.
  exact (@agent_errors_logged unit unit parse _ rust rust_params
           [error "first"; data t1 "x"; error "second"] (serves_rust _)).
Defined.

Lemma null_payload_throws_witness :
  on_data parse "b5a1c2d3" rust_params t1 "null" initial =
  (inl TypeError, initial).
Proof.
  exact (null_payload_throws parse "b5a1c2d3" rust_params t1 "null" initial
           eq_refl eq_refl).
Defined.

Lemma chat_models_carry_configuration_witness :
  exists key name,
    if_set (getOpenaiApiKey with_key) = Some key
    /\ new_chat
         {| chat_modelName := name;
            chat_temperature := QArith_base.Qmake 7 10;
            chat_openAIApiKey := key;
            chat_baseURL := getOpenaiApiEndpoint with_key |} =
       inr (chat_fields "sk-test" (Some "https://llm.example.com/v1") "gpt-4o")
    /\ match if_set (getOpenaiModel with_key) with
       | Some model => "GPT-4 omni" = model /\ name = model
       | None => In ("GPT-4 omni", name) chatModels
       end.
Proof.
  apply (@chat_models_carry_configuration ChatFields new_chat with_key
           "GPT-4 omni").
  vm_compute. do 3 right. left. reflexivity.
Defined.

Lemma embedding_models_carry_configuration_witness :
  exists key name,
    if_set (getOpenaiApiKey with_models) = Some key
    /\ new_embeddings
         {| emb_modelName := name;
            emb_openAIApiKey := key;
            emb_baseURL := getOpenaiApiEndpoint with_models |} =
       inr (embeddings_fields "sk-test" None "text-embedding-ada-002")
    /\ match if_set (getOpenaiEmbeddingsModel with_models) with
       | Some model => "text-embedding-ada-002" = model /\ name = model
       | None => In ("text-embedding-ada-002", name) embeddingModels
       end.
Proof.
  apply (@embedding_models_carry_configuration EmbeddingsFields new_embeddings
           with_models "text-embedding-ada-002").
  vm_compute. left. reflexivity.
Defined.

Lemma openai_models_reach_agent_witness :
  exists message,
    last_message (messages rust_params) = Some message
    /\ serves (openai_env with_key [end_ t3]) rust rust_params
         (handleWebSearch (openai_env with_key [end_ t3]) (content message)
            (map to_base_message (removelast (messages rust_params)))
            (chat_fields "sk-test" (Some "https://llm.example.com/v1")
               "gpt-3.5-turbo")
            (embeddings_fields "sk-test" (Some "https://llm.example.com/v1")
               "text-embedding-3-small")).
Proof.
  exact (@openai_models_reach_agent ChatFields EmbeddingsFields
           new_chat new_embeddings (fun f => f) (fun f => f)
           (openai_env with_key [end_ t3]) with_key "sk-test" rust rust_params
           "openai" [] "openai" []
           eq_refl (fun _ => eq_refl) (fun _ => eq_refl) eq_refl eq_refl
           eq_refl).
Defined.

(** A constructor that throws on the third model: the two models built
    before it are dropped with the rest, and the error is logged after the
    line about the endpoint. *)
Example one_constructor_throws :
  loadOpenAIChatModels new_chat_but_turbo with_key =
  ([info "OpenAI 使用自定义 API 端点： https://llm.example.com/v1";
    error_ "Error loading OpenAI models: Error: model not available"],
   []).
Proof. vm_compute. reflexivity. Qed.

(** An empty API key counts as none. *)
Example empty_key_is_no_key :
  loadOpenAIChatModels new_chat without_key = ([], [])
  /\ loadOpenAIEmbeddingsModels new_embeddings without_key = ([], []).
Proof. split; reflexivity. Qed.

End MoreRuns.
